(** * akeneo-utils: credential cache, request executor and pagination walker

    A shallow embedding of [AkeneoAuth], [AkeneoAuthApi], [AkeneoError] and
    the request / pagination core of [AkeneoApi].

    - JavaScript objects used as string-keyed maps (headers) are [gmap string _].
    - [any]-typed thrown values are a tagged union on the properties the code
      inspects ([isAxiosError], [request], [response], [response.status]).
    - Promises, [await] and the micro-task queue are explicit: an activation of
      the async method [getClientGrant] is a frame that is suspended at one of
      its two [await]s, and a settled promise schedules its reactions in
      registration order.
    - Objects whose identity matters carry an allocation number
      ([AkeneoGrant]) or live in a store ([Results]). *)

From stdpp Require Import gmap strings list fin_maps.

Local Open Scope string_scope.
Local Open Scope list_scope.
Local Open Scope Z_scope.

(** ** JavaScript truthiness *)

(** A string is falsy exactly when it is empty. *)
Definition truthy (s : string) : bool := negb (String.eqb s "").

(** [undefined] is falsy. *)
Definition truthy_opt (o : option string) : bool :=
  match o with
  | Some s => truthy s
  | None => false
  end.

(** ** Thrown values: [AxiosError], [AkeneoError], anything else *)

Section Errors.

(** Opaque JSON payloads ([any]) and the masked diagnostic snapshot kept by an
    [AkeneoError]. *)
Variables Json Diag : Type.

Record AxiosResponse := {
  resp_status : option Z;
  resp_data : option Json;
  resp_headers : gmap string string;
}.

(** An object whose [isAxiosError] property is truthy.  [request] and
    [response] are only tested for presence by the code. *)
Record AxiosError := {
  ax_message : string;
  ax_code : option string;
  ax_config : option Json;
  ax_request : option unit;
  ax_response : option AxiosResponse;
}.

(** [AkeneoError]: [isAkeneoError] is the constant [true]. *)
Record AkeneoError := {
  err_message : string;
  err_data : option Diag;
  err_status : option Z;
}.

(** The second constructor argument of [AkeneoError.fromAxiosError]: the
    snapshot of request and response with sensitive fields masked.  It is
    built by [maskSensitiveHeaders], [maskSensitiveInput] and
    [extractAxiosHeaders] of [../utils], which are taken as given. *)
Variable maskedSnapshot : AxiosError -> Diag.

(** [e.response?.status] *)
Definition response_status (e : AxiosError) : option Z :=
  match ax_response e with
  | Some r => resp_status r
  | None => None
  end.

(** [AkeneoError.fromAxiosError] *)
Definition fromAxiosError (e : AxiosError) : AkeneoError :=
  {| err_message := ax_message e;
     err_data := Some (maskedSnapshot e);
     err_status := response_status e |}.

(** A value of type [any] caught by a [catch] clause. *)
Inductive Thrown :=
| ThrownAxios (e : AxiosError)
| ThrownAkeneo (e : AkeneoError)
| ThrownOther (description : string).

(** [error.isAxiosError], as a truth value. *)
Definition isAxiosError (error : Thrown) : bool :=
  match error with
  | ThrownAxios _ => true
  | _ => false
  end.

(** [error.isAkeneoError], as a truth value. *)
Definition isAkeneoError (error : Thrown) : bool :=
  match error with
  | ThrownAkeneo _ => true
  | _ => false
  end.

(** [AkeneoApi.transformError] *)
Definition transformError (lastError : Thrown) : Thrown :=
  match lastError with
  | ThrownAxios e => ThrownAkeneo (fromAxiosError e)
  | _ => lastError
  end.

(** What [await axios(config)] does: resolve with [response.data] or reject. *)
Inductive AxiosResult (R : Type) :=
| AxiosOk (data : R)
| AxiosFail (error : Thrown).

End Errors.

Arguments resp_status {Json} _.
Arguments resp_data {Json} _.
Arguments resp_headers {Json} _.
Arguments Build_AxiosResponse {Json} _ _ _.
Arguments ax_message {Json} _.
Arguments ax_code {Json} _.
Arguments ax_config {Json} _.
Arguments ax_request {Json} _.
Arguments ax_response {Json} _.
Arguments Build_AxiosError {Json} _ _ _ _ _.
Arguments err_message {Diag} _.
Arguments err_data {Diag} _.
Arguments err_status {Diag} _.
Arguments Build_AkeneoError {Diag} _ _ _.
Arguments response_status {Json} _.
Arguments fromAxiosError {Json Diag} _ _.
Arguments ThrownAxios {Json Diag} _.
Arguments ThrownAkeneo {Json Diag} _.
Arguments ThrownOther {Json Diag} _.
Arguments isAxiosError {Json Diag} _.
Arguments isAkeneoError {Json Diag} _.
Arguments transformError {Json Diag} _ _.
Arguments AxiosOk {Json Diag R} _.
Arguments AxiosFail {Json Diag R} _.

(** ** Grants *)

(** [AkeneoGrantResponse] of [auth/types] *)
Record AkeneoGrantResponse := {
  access_token : string;
  refresh_token : option string;
  expires_in : Z;
}.

(** An [AkeneoGrant] object.  [grant_oid] is the allocation number of the
    object: two grants are the same instance exactly when it agrees. *)
Record AkeneoGrant := {
  grant_oid : nat;
  accessToken : string;
  refreshToken : option string;
  expiresIn : Z;
  expiresAt : Z;
}.

(** Modelled from the spec: the class [AkeneoGrant] ([auth/AkeneoGrant]) is
    missing; only its test is present.  The constructor copies the token,
    drops a blank refresh token and derives [expiresAt] as the construction
    time plus [expires_in] seconds (times are in milliseconds). *)
Definition new_AkeneoGrant (oid : nat) (now : Z) (r : AkeneoGrantResponse) : AkeneoGrant :=
  {| grant_oid := oid;
     accessToken := access_token r;
     refreshToken := if truthy_opt (refresh_token r) then refresh_token r else None;
     expiresIn := expires_in r;
     expiresAt := now + expires_in r * 1000 |}.

(** Modelled from the spec: [AkeneoGrant.expiresWithin] is missing.  The held
    credential "expires within a lookahead window of now". *)
Definition expiresWithin (g : AkeneoGrant) (now secs : Z) : bool :=
  expiresAt g <=? now + secs * 1000.

(** [configDefaults.refreshIfWithinSecs] *)
Definition default_refreshIfWithinSecs : Z := 1800.

(** ** [AkeneoAuth] on an explicit event loop *)

Section Auth.

Variables Json Diag : Type.
Variable maskedSnapshot : AxiosError Json -> Diag.

Abbreviation Thrown := (Thrown Json Diag).

(** How a promise has settled.  [Promise.resolve()] is fulfilled with
    [undefined]; the promise of [api.getClientGrant()] with the response
    body. *)
Inductive Settled :=
| Fulfilled (value : option AkeneoGrantResponse)
| Rejected (reason : Thrown).

(** [AkeneoAuthApi.post] (and [AkeneoAuthApi.getClientGrant], which only
    supplies the path and the body): how the returned promise settles once
    axios has answered. *)
Definition AkeneoAuthApi_post (net : AxiosResult Json Diag AkeneoGrantResponse) : Settled :=
  match net with
  | AxiosOk data => Fulfilled (Some data)
  | AxiosFail (ThrownAxios e) => Rejected (ThrownAkeneo (fromAxiosError maskedSnapshot e))
  | AxiosFail error => Rejected error
  end.

(** A promise object: pending with its reactions (the frames awaiting it, in
    registration order), or settled. *)
Inductive PromiseState :=
| Pending (reactions : list nat)
| Settles (s : Settled).

(** An activation of [getClientGrant]: suspended at [await this.grantPromise]
    (first line), suspended at [await this.grantPromise] inside
    [new AkeneoGrant(...)], or completed. *)
Inductive Frame :=
| AtAwaitHandle
| AtAwaitExchange
| Returned (g : AkeneoGrant)
| Threw (e : Thrown).

(** The fields of an [AkeneoAuth] instance.  [grantPromise] is a reference
    into the promise store. *)
Record AkeneoAuth := {
  refreshIfWithinSecs : Z;
  grant : option AkeneoGrant;
  grantPromise : nat;
}.

(** The JavaScript runtime around the instance: promise store, activations of
    [getClientGrant] (indexed by call number), micro-task queue, wall clock;
    and two counters kept for the statements: the promises returned by
    [api.getClientGrant()] (one per credential exchange started) and the
    number of [AkeneoGrant] objects constructed. *)
Record Runtime := {
  promises : list PromiseState;
  frames : list Frame;
  jobs : list (nat * Settled);
  now : Z;
  exchanges : list nat;
  allocated : nat;
}.

Definition set_promises (ps : list PromiseState) (rt : Runtime) : Runtime :=
  {| promises := ps; frames := frames rt; jobs := jobs rt; now := now rt;
     exchanges := exchanges rt; allocated := allocated rt |}.

Definition set_frames (fs : list Frame) (rt : Runtime) : Runtime :=
  {| promises := promises rt; frames := fs; jobs := jobs rt; now := now rt;
     exchanges := exchanges rt; allocated := allocated rt |}.

Definition set_jobs (js : list (nat * Settled)) (rt : Runtime) : Runtime :=
  {| promises := promises rt; frames := frames rt; jobs := js; now := now rt;
     exchanges := exchanges rt; allocated := allocated rt |}.

Definition set_now (t : Z) (rt : Runtime) : Runtime :=
  {| promises := promises rt; frames := frames rt; jobs := jobs rt; now := t;
     exchanges := exchanges rt; allocated := allocated rt |}.

Definition set_exchanges (xs : list nat) (rt : Runtime) : Runtime :=
  {| promises := promises rt; frames := frames rt; jobs := jobs rt; now := now rt;
     exchanges := xs; allocated := allocated rt |}.

Definition set_allocated (n : nat) (rt : Runtime) : Runtime :=
  {| promises := promises rt; frames := frames rt; jobs := jobs rt; now := now rt;
     exchanges := exchanges rt; allocated := n |}.

Definition set_grant (g : option AkeneoGrant) (a : AkeneoAuth) : AkeneoAuth :=
  {| refreshIfWithinSecs := refreshIfWithinSecs a; grant := g; grantPromise := grantPromise a |}.

Definition set_grantPromise (p : nat) (a : AkeneoAuth) : AkeneoAuth :=
  {| refreshIfWithinSecs := refreshIfWithinSecs a; grant := grant a; grantPromise := p |}.

Definition AuthState : Type := AkeneoAuth * Runtime.

(** [new AkeneoAuth(config)]: [{ ...configDefaults, ...config }] and
    [grantPromise = Promise.resolve()]. *)
Definition new_AkeneoAuth (config_refreshIfWithinSecs : option Z) (clock : Z) : AuthState :=
  ({| refreshIfWithinSecs := default default_refreshIfWithinSecs config_refreshIfWithinSecs;
      grant := None;
      grantPromise := 0%nat |},
   {| promises := [Settles (Fulfilled None)]; frames := []; jobs := []; now := clock;
      exchanges := []; allocated := 0%nat |}).

(** [await p] in frame [c]: a settled promise queues the continuation as a
    micro-task, a pending one registers it as a reaction. *)
Definition await (c p : nat) (rt : Runtime) : Runtime :=
  match promises rt !! p with
  | Some (Settles s) => set_jobs (jobs rt ++ [(c, s)]) rt
  | Some (Pending rs) => set_promises (<[p := Pending (rs ++ [c])]> (promises rt)) rt
  | None => rt
  end.

(** The synchronous part of one call of [getClientGrant()]: it runs up to the
    first [await this.grantPromise]. *)
Definition call (st : AuthState) : AuthState :=
  let c := length (frames st.2) in
  (st.1, await c (grantPromise st.1) (set_frames (frames st.2 ++ [AtAwaitHandle]) st.2)).

(** [this.grant && !this.grant.expiresWithin(this.config.refreshIfWithinSecs)] *)
Definition cached (a : AkeneoAuth) (clock : Z) : option AkeneoGrant :=
  match grant a with
  | Some g => if negb (expiresWithin g clock (refreshIfWithinSecs a)) then Some g else None
  | None => None
  end.

Definition complete (c : nat) (f : Frame) (rt : Runtime) : Runtime :=
  set_frames (<[c := f]> (frames rt)) rt.

(** One micro-task: the continuation of frame [c] after the promise it
    awaited has settled with [s]. *)
Definition resume (job : nat * Settled) (st : AuthState) : AuthState :=
  let c := job.1 in
  match frames st.2 !! c with
  | Some AtAwaitHandle =>
      match job.2 with
      | Rejected e => (st.1, complete c (Threw e) st.2)
      | Fulfilled _ =>
          match cached st.1 (now st.2) with
          | Some g => (st.1, complete c (Returned g) st.2)
          | None =>
              (* this.grantPromise = this.api.getClientGrant() *)
              let p := length (promises st.2) in
              let rt := set_exchanges (exchanges st.2 ++ [p])
                          (set_promises (promises st.2 ++ [Pending []]) st.2) in
              (* await this.grantPromise *)
              (set_grantPromise p st.1, await c p (complete c AtAwaitExchange rt))
          end
      end
  | Some AtAwaitExchange =>
      match job.2 with
      | Rejected e => (st.1, complete c (Threw e) st.2)
      | Fulfilled (Some r) =>
          (* this.grant = new AkeneoGrant(...); return this.grant *)
          let g := new_AkeneoGrant (allocated st.2) (now st.2) r in
          (set_grant (Some g) st.1,
           complete c (Returned g) (set_allocated (S (allocated st.2)) st.2))
      | Fulfilled None =>
          (st.1, complete c (Threw (ThrownOther "TypeError")) st.2)
      end
  | _ => st
  end.

Fixpoint run_jobs (js : list (nat * Settled)) (st : AuthState) : AuthState :=
  match js with
  | [] => st
  | j :: js' => run_jobs js' (resume j st)
  end.

(** Run the micro-task queue to exhaustion. *)
Definition drain (st : AuthState) : AuthState :=
  run_jobs (jobs st.2) (st.1, set_jobs [] st.2).

(** Settling a pending promise queues its reactions in registration order. *)
Definition settle (p : nat) (s : Settled) (rt : Runtime) : Runtime :=
  match promises rt !! p with
  | Some (Pending rs) =>
      set_jobs (jobs rt ++ map (fun c => (c, s)) rs)
        (set_promises (<[p := Settles s]> (promises rt)) rt)
  | _ => rt
  end.

(** What can happen to the instance from outside, one macro-task each:
    [n] calls of [getClientGrant()] issued back to back in one synchronous
    turn; the answer to the credential exchange behind promise [p]; time
    passing. *)
Inductive Event :=
| Calls (n : nat)
| Answers (p : nat) (net : AxiosResult Json Diag AkeneoGrantResponse)
| Elapses (ms : Z).

Definition step (st : AuthState) (ev : Event) : AuthState :=
  match ev with
  | Calls n => drain (Nat.iter n call st)
  | Answers p net => drain (st.1, settle p (AkeneoAuthApi_post net) st.2)
  | Elapses ms => (st.1, set_now (now st.2 + ms) st.2)
  end.

Definition run (evs : list Event) (st : AuthState) : AuthState :=
  foldl step st evs.

(** The outcome of call number [c], once completed. *)
Definition outcome (c : nat) (st : AuthState) : option (Thrown + AkeneoGrant) :=
  match frames st.2 !! c with
  | Some (Returned g) => Some (inr g)
  | Some (Threw e) => Some (inl e)
  | _ => None
  end.

(** [await auth.getClientGrant()] by a caller that is alone on the instance:
    the call is issued, and if it started a credential exchange, axios
    answers it with [net].  [None]: the call is still suspended (somebody
    else's exchange is in flight). *)
Definition getClientGrant_alone (net : AxiosResult Json Diag AkeneoGrantResponse)
    (st : AuthState) : option (Thrown + AkeneoGrant) * AuthState :=
  let c := length (frames st.2) in
  let st1 := step st (Calls 1) in
  let st2 := match frames st1.2 !! c with
             | Some AtAwaitExchange => step st1 (Answers (grantPromise st1.1) net)
             | _ => st1
             end in
  (outcome c st2, st2).

End Auth.

Arguments Fulfilled {Json Diag} _.
Arguments Rejected {Json Diag} _.
Arguments Pending {Json Diag} _.
Arguments Settles {Json Diag} _.
Arguments AtAwaitHandle {Json Diag}.
Arguments AtAwaitExchange {Json Diag}.
Arguments Returned {Json Diag} _.
Arguments Threw {Json Diag} _.
Arguments promises {Json Diag} _.
Arguments frames {Json Diag} _.
Arguments jobs {Json Diag} _.
Arguments now {Json Diag} _.
Arguments exchanges {Json Diag} _.
Arguments allocated {Json Diag} _.
Arguments Build_Runtime {Json Diag} _ _ _ _ _ _.
Arguments set_promises {Json Diag} _ _.
Arguments set_frames {Json Diag} _ _.
Arguments set_jobs {Json Diag} _ _.
Arguments set_now {Json Diag} _ _.
Arguments set_exchanges {Json Diag} _ _.
Arguments set_allocated {Json Diag} _ _.
Arguments new_AkeneoAuth {Json Diag} _ _.
Arguments await {Json Diag} _ _ _.
Arguments call {Json Diag} _.
Arguments complete {Json Diag} _ _ _.
Arguments resume {Json Diag} _ _.
Arguments run_jobs {Json Diag} _ _.
Arguments drain {Json Diag} _.
Arguments settle {Json Diag} _ _ _.
Arguments AkeneoAuthApi_post {Json Diag} _ _.
Arguments Calls {Json Diag} _.
Arguments Answers {Json Diag} _ _.
Arguments Elapses {Json Diag} _.
Arguments step {Json Diag} _ _ _.
Arguments run {Json Diag} _ _ _.
Arguments outcome {Json Diag} _ _.
Arguments getClientGrant_alone {Json Diag} _ _ _.

(** ** [AkeneoApi]: request options, retry loop, error classification *)

(** [AkeneoRetryConfig] of [api/types] *)
Record AkeneoRetryConfig := {
  delayMs : Z;
  maxRetries : Z;
  max429Retries : option Z;
  jitter : option bool;
}.

(** Default retry configuration - equates to no retrying at all *)
Definition DEFAULT_RETRY_CONFIG : AkeneoRetryConfig :=
  {| delayMs := 0; maxRetries := 0; max429Retries := None; jitter := None |}.

(** [Status.InternalServerError], [NotImplemented], [BadGateway],
    [ServiceUnavailable], [GatewayTimeout] *)
Definition RETRYABLE_STATUS_CODES : list Z := [500; 501; 502; 503; 504].

(** [DEFAULT_429_DELAY_MS] of [constants] *)
Definition DEFAULT_429_DELAY_MS : Z := 5000.

Inductive Method := GET | POST | PATCH | DELETE | HEAD.

(** A property of a headers object: a string, or (in
    [axios.defaults.headers]) a nested group such as [common]. *)
Inductive HeaderValue :=
| HString (s : string)
| HGroup (g : gmap string string).

Section Api.

Variables Json Diag : Type.
Variable maskedSnapshot : AxiosError Json -> Diag.

(** [calculateDelay] of [../utils] is taken as given (with jitter it also draws
    a random number; one draw per retry count). *)
Variable calculateDelay : Z -> AkeneoRetryConfig -> Z.

(** The response shape [R] of [request<T, R>]. *)
Variable R : Type.

Abbreviation Thrown := (Thrown Json Diag).

(** [FetchOptions] *)
Record FetchOptions := {
  fo_path : option string;
  fo_url : option string;
  fo_headers : option (gmap string string);
  fo_method : Method;
  fo_params : option Json;
  fo_data : option Json;
  fo_retry : option AkeneoRetryConfig;
}.

(** The object handed to axios: [{ ...opts, url, headers }]. *)
Record RequestConfig := {
  rc_url : string;
  rc_headers : gmap string HeaderValue;
  rc_method : Method;
  rc_params : option Json;
  rc_data : option Json;
  rc_retry : option AkeneoRetryConfig;
  rc_path : option string;
}.

(** The fields of an [AkeneoApi] instance that the request path reads;
    [axios_defaults_headers] is [this.axios.defaults.headers]. *)
Record AkeneoApi := {
  endpoint : string;
  axios_defaults_headers : gmap string HeaderValue;
  retry : AkeneoRetryConfig;
}.

(** [new AkeneoApi(config)]: the endpoint and
    [this.retry = config.retry || DEFAULT_RETRY_CONFIG]. *)
Definition new_AkeneoApi (config_endpoint : string) (config_retry : option AkeneoRetryConfig)
    (defaults_headers : gmap string HeaderValue) : AkeneoApi :=
  {| endpoint := config_endpoint +:+ "/api/rest/v1";
     axios_defaults_headers := defaults_headers;
     retry := default DEFAULT_RETRY_CONFIG config_retry |}.

(** What the executor does to the outside, in order. *)
Inductive Effect :=
| AskedGrant
| Slept (ms : Z)
| Sent (config : RequestConfig).

(** The world of one executor: its [auth] member on its event loop, the token
    endpoint (answer to the n-th credential exchange), the REST endpoint
    (answer to a request, given how many were sent before), and the effects
    so far, oldest first. *)
Record World := {
  auth : AuthState Json Diag;
  oauth : nat -> AxiosResult Json Diag AkeneoGrantResponse;
  server : nat -> RequestConfig -> AxiosResult Json Diag R;
  requests : nat;
  trace : list Effect;
}.

Definition set_auth (a : AuthState Json Diag) (w : World) : World :=
  {| auth := a; oauth := oauth w; server := server w; requests := requests w;
     trace := trace w |}.

Definition log (e : Effect) (w : World) : World :=
  {| auth := auth w; oauth := oauth w; server := server w; requests := requests w;
     trace := trace w ++ [e] |}.

(** A computation that may throw; [None] only when it cannot proceed (the
    awaited grant never settles, or a loop bound of the model is hit). *)
Definition Exec (A : Type) : Type := World -> option ((Thrown + A) * World).

(** [await this.auth.getClientGrant()] *)
Definition getClientGrant : Exec AkeneoGrant := fun w =>
  let net := oauth w (length (exchanges (auth w).2)) in
  let res := getClientGrant_alone maskedSnapshot net (auth w) in
  match res.1 with
  | Some r => Some (r, log AskedGrant (set_auth res.2 w))
  | None => None
  end.

(** [await this.axios(requestConfig)] *)
Definition axios (config : RequestConfig) (w : World) : AxiosResult Json Diag R * World :=
  (server w (requests w) config,
   {| auth := auth w; oauth := oauth w; server := server w; requests := S (requests w);
      trace := trace w ++ [Sent config] |}).

(** [await new Promise((resolve) => setTimeout(resolve, delay))] *)
Definition sleep (delay : Z) (w : World) : World :=
  log (Slept delay) (set_auth (step maskedSnapshot (auth w) (Elapses (Z.max 0 delay))) w).

(** [AkeneoApi.getRetryConfig] *)
Definition getRetryConfig (api : AkeneoApi) (methodRetryConfig : option AkeneoRetryConfig)
    : AkeneoRetryConfig :=
  default (retry api) methodRetryConfig.

(** The [headers] literal of [getRequestOptions]: later properties win, so
    the union is taken with the caller's headers on the left. *)
Definition merge_headers (defaults : gmap string HeaderValue) (grant : AkeneoGrant)
    (caller : option (gmap string string)) : gmap string HeaderValue :=
  (HString <$> default ∅ caller)
    ∪ <["Authorization" := HString ("Bearer " +:+ accessToken grant)]> defaults.

(** The object that [getRequestOptions] returns, once the grant is there:
    [{ ...opts, url, headers }]. *)
Definition request_options (api : AkeneoApi) (options : FetchOptions) (grant : AkeneoGrant)
    : RequestConfig :=
  {| rc_url := match fo_url options with
               | Some u => u
               | None => endpoint api +:+ default "undefined" (fo_path options)
               end;
     rc_headers := merge_headers (axios_defaults_headers api) grant (fo_headers options);
     rc_method := fo_method options;
     rc_params := fo_params options;
     rc_data := fo_data options;
     rc_retry := fo_retry options;
     (* opts.path && delete opts.path: a falsy path stays *)
     rc_path := if truthy_opt (fo_path options) then None else fo_path options |}.

(** [AkeneoApi.getRequestOptions] *)
Definition getRequestOptions (api : AkeneoApi) (options : FetchOptions) : Exec RequestConfig :=
  fun w =>
  match getClientGrant w with
  | None => None
  | Some (inl e, w1) => Some (inl e, w1)
  | Some (inr grant, w1) => Some (inr (request_options api options grant), w1)
  end.

(** [AkeneoApi.isRetryableError] *)
Definition isRetryableError (error : Thrown) : bool :=
  match error with
  | ThrownAxios e =>
      match ax_request e, ax_response e with
      | Some _, Some response =>
          match resp_status response with
          | Some status => bool_decide (status ∈ RETRYABLE_STATUS_CODES)
          | None => false
          end
      | _, _ => true
      end
  | _ => true
  end.

(** The state in which the iteration with [retryCount] sends its attempt:
    [if (retryCount > 0) { ... await the delay ... }]. *)
Definition before_attempt (retryConfig : AkeneoRetryConfig) (retryCount : nat) (w : World)
    : World :=
  match retryCount with
  | O => w
  | S _ => sleep (calculateDelay (Z.of_nat retryCount) retryConfig) w
  end.

(** The [do ... while (retryCount <= retryConfig.maxRetries)] loop of
    [request]; one unit of [fuel] per iteration. *)
Fixpoint request_loop (fuel : nat) (requestConfig : RequestConfig)
    (retryConfig : AkeneoRetryConfig) (retryCount : Z) : Exec R :=
  fun w =>
  match fuel with
  | O => None
  | S fuel' =>
      let w1 := if 0 <? retryCount
                then sleep (calculateDelay retryCount retryConfig) w
                else w in
      let attempt := axios requestConfig w1 in
      match attempt.1 with
      | AxiosOk data => Some (inr data, attempt.2)
      | AxiosFail error =>
          if isRetryableError error then
            let lastError := error in
            if retryCount + 1 <=? maxRetries retryConfig
            then request_loop fuel' requestConfig retryConfig (retryCount + 1) attempt.2
            else Some (inl (transformError maskedSnapshot lastError), attempt.2)
          else Some (inl (transformError maskedSnapshot error), attempt.2)
      end
  end.

(** [AkeneoApi.request] *)
Definition request (api : AkeneoApi) (options : FetchOptions) : Exec R := fun w =>
  match getRequestOptions api options w with
  | None => None
  | Some (inl e, w1) => Some (inl e, w1)
  | Some (inr requestConfig, w1) =>
      let retryConfig := getRetryConfig api (fo_retry options) in
      request_loop (S (Z.to_nat (maxRetries retryConfig))) requestConfig retryConfig 0 w1
  end.

(** [AkeneoApi.followLink] *)
Definition followLink (api : AkeneoApi) (url : string) : Exec R :=
  request api {| fo_path := None; fo_url := Some url; fo_headers := None; fo_method := GET;
                 fo_params := None; fo_data := None; fo_retry := None |}.

(** The requests sent, in order. *)
Definition attempts (tr : list Effect) : list RequestConfig :=
  omap (fun e => match e with Sent c => Some c | _ => None end) tr.

End Api.

Arguments fo_path {Json} _.
Arguments fo_url {Json} _.
Arguments fo_headers {Json} _.
Arguments fo_method {Json} _.
Arguments fo_params {Json} _.
Arguments fo_data {Json} _.
Arguments fo_retry {Json} _.
Arguments Build_FetchOptions {Json} _ _ _ _ _ _ _.
Arguments rc_url {Json} _.
Arguments rc_headers {Json} _.
Arguments rc_method {Json} _.
Arguments rc_params {Json} _.
Arguments rc_data {Json} _.
Arguments rc_retry {Json} _.
Arguments rc_path {Json} _.
Arguments Build_RequestConfig {Json} _ _ _ _ _ _ _.
Arguments AskedGrant {Json}.
Arguments Slept {Json} _.
Arguments Sent {Json} _.
Arguments auth {Json Diag R} _.
Arguments oauth {Json Diag R} _ _.
Arguments server {Json Diag R} _ _ _.
Arguments requests {Json Diag R} _.
Arguments trace {Json Diag R} _.
Arguments Build_World {Json Diag R} _ _ _ _ _.
Arguments set_auth {Json Diag R} _ _.
Arguments log {Json Diag R} _ _.
Arguments getClientGrant {Json Diag} _ {R} _.
Arguments axios {Json Diag R} _ _.
Arguments sleep {Json Diag} _ {R} _ _.
Arguments request_options {Json} _ _ _.
Arguments getRequestOptions {Json Diag} _ {R} _ _ _.
Arguments before_attempt {Json Diag} _ _ {R} _ _ _.
Arguments getRetryConfig _ _ : assert.
Arguments merge_headers _ _ _ : assert.
Arguments isRetryableError {Json Diag} _.
Arguments request_loop {Json Diag} _ _ {R} _ _ _ _ _.
Arguments request {Json Diag} _ _ {R} _ _ _.
Arguments followLink {Json Diag} _ _ {R} _ _ _.
Arguments attempts {Json} _.

(** ** Paged results and [appendRemainingPages] *)

Record Link := { href : string }.

(** [Results._links] *)
Record Links := {
  self : option Link;
  first : option Link;
  previous : option Link;
  next : option Link;
}.

Section Pagination.

Variables Json Diag : Type.
Variable maskedSnapshot : AxiosError Json -> Diag.
Variable calculateDelay : Z -> AkeneoRetryConfig -> Z.

(** The item type of [Results<T>]. *)
Variable T : Type.

(** [Results<T>]; [_embedded_items] is [_embedded.items]. *)
Record Results := {
  _links : Links;
  current_page : option Z;
  items_count : option Z;
  _embedded_items : list T;
}.

(** The [Results] objects alive, by reference: an object is mutated in place
    by updating its slot. *)
Abbreviation Store := (list Results).

Abbreviation PWorld := (World Json Diag Results).

(** [r._links.next?.href] *)
Definition next_href (r : Results) : option string :=
  href <$> next (_links r).

(** [r._embedded.items.push(...more)] *)
Definition push_items (more : list T) (r : Results) : Results :=
  {| _links := _links r; current_page := current_page r; items_count := items_count r;
     _embedded_items := _embedded_items r ++ more |}.

(** [r._links = { first: r._links.first }] *)
Definition keep_first_link (r : Results) : Results :=
  {| _links := {| self := None; first := first (_links r); previous := None; next := None |};
     current_page := current_page r; items_count := items_count r;
     _embedded_items := _embedded_items r |}.

(** The [while (nextHref)] loop of [appendRemainingPages]; [response] is the
    reference held in [options.response]. *)
Fixpoint pages_loop (fuel : nat) (api : AkeneoApi) (response : nat)
    (nextHref : option string) (h : Store) (w : PWorld)
    : option ((Thrown Json Diag + unit) * Store * PWorld) :=
  match nextHref with
  | Some url =>
      if truthy url then
        match fuel with
        | O => None
        | S fuel' =>
            match followLink maskedSnapshot calculateDelay api url w with
            | None => None
            | Some (inl e, w1) => Some (inl e, h, w1)
            | Some (inr data, w1) =>
                (* the parsed body is a new object *)
                let nextResponse := length h in
                let h1 := h ++ [data] in
                let h2 := match h1 !! nextResponse with
                          | Some page => alter (push_items (_embedded_items page)) response h1
                          | None => h1
                          end in
                pages_loop fuel' api response (next_href data) h2 w1
            end
        end
      else Some (inr (), h, w)
  | None => Some (inr (), h, w)
  end.

(** [AkeneoApi.appendRemainingPages] *)
Definition appendRemainingPages (fuel : nat) (api : AkeneoApi) (response : nat)
    (h : Store) (w : PWorld) : option ((Thrown Json Diag + unit) * Store * PWorld) :=
  match h !! response with
  | None => None
  | Some r =>
      match pages_loop fuel api response (next_href r) h w with
      | Some (inr _, h1, w1) => Some (inr (), alter keep_first_link response h1, w1)
      | other => other
      end
  end.

(** The [getListOf...] methods ([getListOfProducts], [getListOfCategories],
    ...) differ only in the path: request the first page, drain the rest when
    [fetchAll] is set, return the first page's object. *)
Definition getListOf (fuel : nat) (api : AkeneoApi) (path : string) (params : option Json)
    (retryOpt : option AkeneoRetryConfig) (fetchAll : bool) (h : Store) (w : PWorld)
    : option ((Thrown Json Diag + nat) * Store * PWorld) :=
  match request maskedSnapshot calculateDelay api
          {| fo_path := Some path; fo_url := None; fo_headers := None; fo_method := GET;
             fo_params := params; fo_data := None; fo_retry := retryOpt |} w with
  | None => None
  | Some (inl e, w1) => Some (inl e, h, w1)
  | Some (inr data, w1) =>
      let response := length h in
      let h1 := h ++ [data] in
      if fetchAll then
        match appendRemainingPages fuel api response h1 w1 with
        | None => None
        | Some (inl e, h2, w2) => Some (inl e, h2, w2)
        | Some (inr _, h2, w2) => Some (inr response, h2, w2)
        end
      else Some (inr response, h1, w1)
  end.

(** Pages linked through [_links.next]: starting in world [w] with the link
    [nextHref], following the links fetches [pages] one after the other and
    ends in world [w'] at a page without a (truthy) next link. *)
Inductive chain (api : AkeneoApi) : PWorld -> option string -> list Results -> PWorld -> Prop :=
| chain_end w nextHref :
    truthy_opt nextHref = false -> chain api w nextHref [] w
| chain_next w url page w1 pages w2 :
    truthy url = true ->
    followLink maskedSnapshot calculateDelay api url w = Some (inr page, w1) ->
    chain api w1 (next_href page) pages w2 ->
    chain api w (Some url) (page :: pages) w2.

End Pagination.

Arguments _links {T} _.
Arguments current_page {T} _.
Arguments items_count {T} _.
Arguments _embedded_items {T} _.
Arguments Build_Results {T} _ _ _ _.
Arguments next_href {T} _.
Arguments push_items {T} _ _.
Arguments keep_first_link {T} _.
Arguments pages_loop {Json Diag} _ _ {T} _ _ _ _ _ _.
Arguments appendRemainingPages {Json Diag} _ _ {T} _ _ _ _ _.
Arguments getListOf {Json Diag} _ _ {T} _ _ _ _ _ _ _ _.
Arguments chain {Json Diag} _ _ {T} _ _ _ _ _.

(** ** Vocabulary of the statements *)

(** The instance is at rest: no continuation is queued and the handle
    [grantPromise] refers to a settled promise. *)
Definition settled_handle {Json Diag : Type} (st : AuthState Json Diag) : Prop :=
  jobs st.2 = [] ∧ ∃ s, promises st.2 !! grantPromise st.1 = Some (Settles s).

Section Vocabulary.

Variables Json Diag : Type.
Variable calculateDelay : Z -> AkeneoRetryConfig -> Z.

(** An axios error for a request that was sent and answered with [status]. *)
Definition http_failure (e : AxiosError Json) (status : Z) : Prop :=
  ax_request e = Some () ∧
  ∃ r, ax_response e = Some r ∧ resp_status r = Some status.

(** The effects of the loop iteration entered with [retryCount]: the delay
    (on a retry only), then the attempt. *)
Definition attempt_effects (config : RequestConfig Json) (retryConfig : AkeneoRetryConfig)
    (retryCount : nat) : list (Effect Json) :=
  match retryCount with
  | O => [Sent config]
  | S _ => [Slept (calculateDelay (Z.of_nat retryCount) retryConfig); Sent config]
  end.

(** The effects of the iterations with retry counts [0 .. n-1]. *)
Definition loop_effects (config : RequestConfig Json) (retryConfig : AkeneoRetryConfig)
    (n : nat) : list (Effect Json) :=
  concat (attempt_effects config retryConfig <$> seq 0 n).

(** Reading of "the Credential is re-obtained before the retried attempt":
    between two consecutive attempts the trace asks the token cache. *)
Definition credential_refetched_on_retry (tr : list (Effect Json)) : Prop :=
  ∀ pre c1 mid c2 post,
    tr = pre ++ [Sent c1] ++ mid ++ [Sent c2] ++ post →
    (∀ c, Sent c ∉ mid) →
    AskedGrant ∈ mid.

End Vocabulary.

Arguments http_failure {Json} _ _.
Arguments attempt_effects {Json} _ _ _ _.
Arguments loop_effects {Json} _ _ _ _.
Arguments credential_refetched_on_retry {Json} _.

(** Reading of "caller-supplied headers cannot override Authorization": the
    configuration handed to axios carries the bearer token of the grant that
    the token cache returned. *)
Definition authorization_protected {Json Diag R : Type}
    (maskedSnapshot : AxiosError Json -> Diag) (api : AkeneoApi)
    (options : FetchOptions Json) (w : World Json Diag R) : Prop :=
  ∀ config w',
    getRequestOptions maskedSnapshot api options w = Some (inr config, w') →
    ∃ g, getClientGrant maskedSnapshot w = Some (inr g, w') ∧
         rc_headers config !! "Authorization" = Some (HString ("Bearer " +:+ accessToken g)).

(** ** [AkeneoApi.validateConfig] *)

(** A property of the [config: any] object as the validation tests it: falsy
    ([undefined], [null], [0], [false]), a string, or a truthy value that
    is not a string. *)
Inductive ConfigValue :=
| CfgFalsy
| CfgString (s : string)
| CfgOther.

(** The five properties that [validateConfig] reads. *)
Record RawConfig := {
  cfg_endpoint : ConfigValue;
  cfg_username : ConfigValue;
  cfg_password : ConfigValue;
  cfg_clientId : ConfigValue;
  cfg_clientSecret : ConfigValue;
}.

(** The line feed of ['\n']. *)
Definition newline : string := String (Ascii.ascii_of_nat 10) EmptyString.

Section Validation.

Variable Diag : Type.

(** [new URL(s)] does not throw. *)
Variable validURL : string -> bool.

(** [if (!config.x) ... else if (typeof config.x !== 'string') ...] for the
    property named [name]; [more] is what is checked of a non-empty string. *)
Definition property_errors (name : string) (more : string -> list string) (v : ConfigValue)
    : list string :=
  match v with
  | CfgFalsy => ["The `" +:+ name +:+ "` property is empty"]
  | CfgString s =>
      if truthy s then more s else ["The `" +:+ name +:+ "` property is empty"]
  | CfgOther => ["The `" +:+ name +:+ "` property must be a string"]
  end.

(** The [errors] array of [validateConfig], in the order of the pushes. *)
Definition config_errors (config : option RawConfig) : list string :=
  match config with
  | None => ["The config object missing or empty"]
  | Some c =>
      property_errors "endpoint"
        (fun s => if validURL s then [] else ["The `endpoint` property is not a valid URL"])
        (cfg_endpoint c)
      ++ property_errors "username" (fun _ => []) (cfg_username c)
      ++ property_errors "password" (fun _ => []) (cfg_password c)
      ++ property_errors "clientId" (fun _ => []) (cfg_clientId c)
      ++ property_errors "clientSecret" (fun _ => []) (cfg_clientSecret c)
  end.

(** [AkeneoApi.validateConfig]: [None] when it returns, the [AkeneoError]
    when it throws. *)
Definition validateConfig (config : option RawConfig) : option (AkeneoError Diag) :=
  match config_errors config with
  | [] => None
  | errors =>
      Some {| err_message :=
                "The configuration object passed in to the `AkeneoApi` constructor is not valid: "
                +:+ newline
                +:+ String.concat newline ((fun error => "â€¢ " +:+ error) <$> errors);
              err_data := None;
              err_status := None |}
  end.

End Validation.

Arguments property_errors _ _ _ : assert.
Arguments config_errors _ _ : assert.
Arguments validateConfig {Diag} _ _.

(** ** [AkeneoError.parseRequestData] *)

(** A property of [paramsObj]: a string or an array of strings. *)
Inductive ParamValue :=
| PString (s : string)
| PArray (values : list string).

Section RequestData.

Variable Json : Type.

(** [JSON.parse] ([None] when it throws) and the pairs of
    [new URLSearchParams(s)], in order. *)
Variable JSON_parse : string -> option Json.
Variable URLSearchParams : string -> list (string * string).

(** [config.data], and what [parseRequestData] returns: the data as it is, the
    parsed JSON, or the object built from the form fields. *)
Inductive RequestData :=
| DUndefined
| DNull
| DNumber (n : Z)
| DString (s : string)
| DValue (j : Json)
| DParams (paramsObj : gmap string ParamValue).

(** The part of [InternalAxiosRequestConfig] that is read;
    [ic_content_type] is [headers?.['Content-Type']] when that is a string. *)
Record InternalConfig := {
  ic_data : RequestData;
  ic_content_type : option string;
}.

(** [searchParams.getAll(key)] *)
Definition getAll (key : string) (pairs : list (string * string)) : list string :=
  (filter (fun p => p.1 = key) pairs).*2.

(** The value stored for a key whose values are [values]. *)
Definition param_value (values : list string) : ParamValue :=
  match values with
  | [] => PString ""
  | [v] => PString v
  | _ => PArray values
  end.

(** [paramsObj[key] = v] on an object literal: the key [__proto__] reaches the
    prototype setter and creates no property. *)
Definition assign (key : string) (v : ParamValue) (obj : gmap string ParamValue)
    : gmap string ParamValue :=
  if decide (key = "__proto__") then obj else <[key := v]> obj.

(** The [forEach] over the search parameters. *)
Definition paramsObj_of (pairs : list (string * string)) : gmap string ParamValue :=
  foldl (fun obj p => assign p.1 (param_value (getAll p.1 pairs)) obj) ∅ pairs.

(** [contentType.substring(0, n) === prefix] *)
Definition has_prefix (n : nat) (prefix contentType : string) : bool :=
  String.eqb (String.substring 0 n contentType) prefix.

(** [AkeneoError.parseRequestData] *)
Definition parseRequestData (config : option InternalConfig) : RequestData :=
  match config with
  | None => DUndefined
  | Some c =>
      match ic_data c with
      | DString s =>
          if truthy s then
            let contentType := default "" (ic_content_type c) in
            if has_prefix 16 "application/json" contentType then
              match JSON_parse s with
              | Some j => DValue j
              | None => DString s
              end
            else if has_prefix 33 "application/x-www-form-urlencoded" contentType then
              DParams (paramsObj_of (URLSearchParams s))
            else DString s
          else DString s
      | data => data
      end
  end.

End RequestData.

Arguments DUndefined {Json}.
Arguments DNull {Json}.
Arguments DNumber {Json} _.
Arguments DString {Json} _.
Arguments DValue {Json} _.
Arguments DParams {Json} _.
Arguments ic_data {Json} _.
Arguments ic_content_type {Json} _.
Arguments Build_InternalConfig {Json} _ _.
Arguments parseRequestData {Json} _ _ _.

(** ** Pagination that ends in a failure *)

Section BrokenPagination.

Variables Json Diag : Type.
Variable maskedSnapshot : AxiosError Json -> Diag.
Variable calculateDelay : Z -> AkeneoRetryConfig -> Z.
Variable T : Type.

(** Following the links from [nextHref] in world [w] fetches [pages], then the
    next request is raised as [e], in world [w']. *)
Inductive broken_chain (api : AkeneoApi)
  : World Json Diag (Results T) -> option string -> list (Results T) ->
    Thrown Json Diag -> World Json Diag (Results T) -> Prop :=
| broken_here w url e w1 :
    truthy url = true ->
    followLink maskedSnapshot calculateDelay api url w = Some (inl e, w1) ->
    broken_chain api w (Some url) [] e w1
| broken_later w url page w1 pages e w2 :
    truthy url = true ->
    followLink maskedSnapshot calculateDelay api url w = Some (inr page, w1) ->
    broken_chain api w1 (next_href page) pages e w2 ->
    broken_chain api w (Some url) (page :: pages) e w2.

End BrokenPagination.

Arguments broken_chain {Json Diag} _ _ {T} _ _ _ _ _ _.

(** ** Counting the calls that have passed their first [await] *)

Section Started.

Variables Json Diag : Type.

(** The frame is past [await this.grantPromise] on the first line. *)
Definition past_first_await (f : Frame Json Diag) : bool :=
  match f with
  | AtAwaitHandle => false
  | _ => true
  end.

Fixpoint started (fs : list (Frame Json Diag)) : nat :=
  match fs with
  | [] => 0
  | f :: fs' => (if past_first_await f then 1 else 0) + started fs'
  end.

(** How the continuation of a caller suspended at the first [await] ends
    without a refresh: with the stored rejection, or with the cached grant. *)
Definition ends_with (s : Settled Json Diag) (f : Frame Json Diag) (a : AkeneoAuth) (t : Z)
    : Prop :=
  match s with
  | Rejected e => f = Threw e
  | Fulfilled _ => ∃ g, cached a t = Some g ∧ f = Returned g
  end.

End Started.

Arguments past_first_await {Json Diag} _.
Arguments started {Json Diag} _.
Arguments ends_with {Json Diag} _ _ _ _.

(** ** Fixtures (after the repository's tests) *)

Module Fixture.

(** JSON payloads as text; the masked snapshot reduced to the mask. *)
Definition maskedSnapshot (e : AxiosError string) : string := "********".

(** Modelled from the spec: [calculateDelay] of [../utils] is missing.  Without
    jitter the delay for attempt [n] is [delayMs * 2^(n-1)]. *)
Definition calculateDelay (retryCount : Z) (retryConfig : AkeneoRetryConfig) : Z :=
  delayMs retryConfig * 2 ^ (retryCount - 1).

Definition defaultClientGrantResponse : AkeneoGrantResponse :=
  {| access_token := "test-access-token";
     refresh_token := Some "test-refresh-token";
     expires_in := 172800 |}.

Definition otherClientGrantResponse : AkeneoGrantResponse :=
  {| access_token := "other-access-token"; refresh_token := None; expires_in := 172800 |}.

(** "Request failed with status code ..." as axios raises it. *)
Definition statusError (status : Z) (headers : gmap string string) : AxiosError string :=
  {| ax_message := "Request failed";
     ax_code := Some "ERR_BAD_RESPONSE";
     ax_config := None;
     ax_request := Some ();
     ax_response := Some {| resp_status := Some status; resp_data := None;
                            resp_headers := headers |} |}.

Definition retryOf (delay retries : Z) (retries429 : option Z) : AkeneoRetryConfig :=
  {| delayMs := delay; maxRetries := retries; max429Retries := retries429; jitter := None |}.

(** [instance.defaults.headers] after [createAxiosInstance]. *)
Definition defaultsHeaders : gmap string HeaderValue :=
  {[ "common" := HGroup {[ "Accept" := "application/json" ]} ]}.

Definition apiWith (retryConfig : AkeneoRetryConfig) : AkeneoApi :=
  new_AkeneoApi "https://test-endpoint" (Some retryConfig) defaultsHeaders.

(** A new executor whose token endpoint always answers with the default
    grant. *)
Definition newWorld {R : Type} (srv : nat -> RequestConfig string -> AxiosResult string string R)
    : World string string R :=
  {| auth := new_AkeneoAuth None 0;
     oauth := fun _ => AxiosOk defaultClientGrantResponse;
     server := srv;
     requests := 0%nat;
     trace := [] |}.

Definition getProducts (headers : option (gmap string string)) : FetchOptions string :=
  {| fo_path := Some "/products"; fo_url := None; fo_headers := headers; fo_method := GET;
     fo_params := None; fo_data := None; fo_retry := None |}.

(** [nock(...).get('/api/rest/v1/products').reply(status)], persisted. *)
Definition alwaysStatus (status : Z) (n : nat) (c : RequestConfig string)
    : AxiosResult string string string :=
  AxiosFail (ThrownAxios (statusError status ∅)).

(** One failure with [status] (and response headers), then [200]. *)
Definition statusThenOk (status : Z) (headers : gmap string string) (n : nat)
    (c : RequestConfig string) : AxiosResult string string string :=
  match n with
  | O => AxiosFail (ThrownAxios (statusError status headers))
  | S _ => AxiosOk "{success: true}"
  end.

(** A failure inside the package: not an axios error. *)
Definition alwaysRaw (n : nat) (c : RequestConfig string) : AxiosResult string string string :=
  AxiosFail (ThrownOther "TypeError").

(** Three pages of products linked through [_links.next]. *)
Definition linkTo (url : string) : option Link := Some {| href := url |}.

Definition page1 : Results string :=
  {| _links := {| self := linkTo "https://test-endpoint/p1";
                  first := linkTo "https://test-endpoint/p1";
                  previous := None;
                  next := linkTo "https://test-endpoint/p2" |};
     current_page := Some 1; items_count := Some 5;
     _embedded_items := ["a"; "b"] |}.

Definition page2 : Results string :=
  {| _links := {| self := linkTo "https://test-endpoint/p2";
                  first := linkTo "https://test-endpoint/p1";
                  previous := linkTo "https://test-endpoint/p1";
                  next := linkTo "https://test-endpoint/p3" |};
     current_page := Some 2; items_count := Some 5;
     _embedded_items := ["c"; "d"] |}.

Definition page3 : Results string :=
  {| _links := {| self := linkTo "https://test-endpoint/p3";
                  first := linkTo "https://test-endpoint/p1";
                  previous := linkTo "https://test-endpoint/p2";
                  next := None |};
     current_page := Some 3; items_count := Some 5;
     _embedded_items := ["e"] |}.

Definition pageServer (n : nat) (c : RequestConfig string)
    : AxiosResult string string (Results string) :=
  if String.eqb (rc_url c) "https://test-endpoint/p2" then AxiosOk page2
  else if String.eqb (rc_url c) "https://test-endpoint/p3" then AxiosOk page3
  else AxiosOk page1.

(** The grant that a new executor obtains first. *)
Definition firstGrant : AkeneoGrant := new_AkeneoGrant 0 0 defaultClientGrantResponse.

(** The world in which a computation ended. *)
Definition world_after {A R : Type} (r : option (A * World string string R))
    (w : World string string R) : World string string R :=
  match r with
  | Some (_, w1) => w1
  | None => w
  end.

(** The world right after the grant has been obtained. *)
Definition granted {R : Type} (w : World string string R) : World string string R :=
  world_after (getClientGrant maskedSnapshot w) w.

(** The effects of a computation. *)
Definition effects_of {A R : Type} (r : option (A * World string string R))
    : list (Effect string) :=
  match r with
  | Some (_, w1) => trace w1
  | None => []
  end.

Definition evilHeaders : gmap string string := {[ "Authorization" := "Basic evil" ]}.

(** [Retry-After: 2] *)
Definition retryAfter2 : gmap string string := {[ "Retry-After" := "2" ]}.

(** The first page requested and drained ([fetchAll]). *)
Definition drained :=
  appendRemainingPages maskedSnapshot calculateDelay 5
    (new_AkeneoApi "https://test-endpoint" None defaultsHeaders) 0 [page1] (newWorld pageServer).

Definition followed (url : string) (w : World string string (Results string)) :=
  followLink maskedSnapshot calculateDelay
    (new_AkeneoApi "https://test-endpoint" None defaultsHeaders) url w.

(** A failed credential exchange on a new instance, with two callers waiting. *)
Definition rejectedAuth : AuthState string string :=
  run maskedSnapshot
    [Calls 1; Calls 1; Answers 1 (AxiosFail (ThrownAxios (statusError 500 ∅)))]
    (new_AkeneoAuth None 0).

Definition exchangeError : Thrown string string :=
  ThrownAkeneo (fromAxiosError maskedSnapshot (statusError 500 ∅)).

(** Executors of the retry tests. *)
Definition apiRetry2 : AkeneoApi := apiWith (retryOf 300 2 None).
Definition apiRetry4 : AkeneoApi := apiWith (retryOf 300 4 None).
Definition apiRetry1 : AkeneoApi := apiWith (retryOf 300 1 None).
Definition api429 : AkeneoApi := apiWith (retryOf 300 0 (Some 4)).
Definition apiDefault : AkeneoApi := new_AkeneoApi "https://test-endpoint" None defaultsHeaders.

Definition world500 : World string string string := newWorld (alwaysStatus 500).
Definition world400 : World string string string := newWorld (alwaysStatus 400).
Definition worldRaw : World string string string := newWorld alwaysRaw.
Definition world429 : World string string string := newWorld (statusThenOk 429 retryAfter2).
Definition world500Once : World string string string := newWorld (statusThenOk 500 ∅).
Definition worldPages : World string string (Results string) := newWorld pageServer.

Definition worldPage2 : World string string (Results string) :=
  world_after (followed "https://test-endpoint/p2" worldPages) worldPages.

Definition worldPage3 : World string string (Results string) :=
  world_after (followed "https://test-endpoint/p3" worldPage2) worldPage2.

(** The store in which a pagination run ended. *)
Definition store_after {A R : Type}
    (r : option (A * list (Results string) * World string string R)) : list (Results string) :=
  match r with
  | Some (_, h, _) => h
  | None => []
  end.

(** Two calls in one turn on a new instance, both exchanges answered. *)
Definition sameTurnAuth : AuthState string string :=
  run maskedSnapshot
    [Calls 2; Answers 1 (AxiosOk defaultClientGrantResponse);
     Answers 2 (AxiosOk defaultClientGrantResponse)]
    (new_AkeneoAuth None 0).

(** One call in a turn of its own, four more while its exchange is in flight
    (the repository's test of simultaneous requests). *)
Definition spacedAuth : AuthState string string :=
  run maskedSnapshot
    [Calls 1; Calls 1; Calls 1; Calls 1; Calls 1;
     Answers 1 (AxiosOk defaultClientGrantResponse)]
    (new_AkeneoAuth None 0).

(** The instance one day after its first grant (which lasts two days), and
    two days after it. *)
Definition authNextDay : AuthState string string :=
  run maskedSnapshot
    [Calls 1; Answers 1 (AxiosOk defaultClientGrantResponse); Elapses 86400000]
    (new_AkeneoAuth None 0).

Definition authExpired : AuthState string string :=
  run maskedSnapshot
    [Calls 1; Answers 1 (AxiosOk defaultClientGrantResponse); Elapses 172800000]
    (new_AkeneoAuth None 0).

(** An executor whose credential exchange has failed. *)
Definition worldPoisoned : World string string string :=
  {| auth := rejectedAuth;
     oauth := fun _ => AxiosOk defaultClientGrantResponse;
     server := alwaysStatus 500;
     requests := 0%nat;
     trace := [] |}.

Definition apiNegative : AkeneoApi := apiWith (retryOf 300 (-1) None).

Definition getProductsWithRetry : FetchOptions string :=
  {| fo_path := Some "/products"; fo_url := None; fo_headers := None; fo_method := GET;
     fo_params := None; fo_data := None; fo_retry := Some (retryOf 500 1 None) |}.

(** The second page is served, the third one fails. *)
Definition brokenPageServer (n : nat) (c : RequestConfig string)
    : AxiosResult string string (Results string) :=
  if String.eqb (rc_url c) "https://test-endpoint/p2" then AxiosOk page2
  else AxiosFail (ThrownAxios (statusError 500 ∅)).

Definition worldBroken : World string string (Results string) := newWorld brokenPageServer.

Definition worldBroken2 : World string string (Results string) :=
  world_after (followed "https://test-endpoint/p2" worldBroken) worldBroken.

Definition worldBroken3 : World string string (Results string) :=
  world_after (followed "https://test-endpoint/p3" worldBroken2) worldBroken2.

(** Every page links to a next one. *)
Definition loopServer (n : nat) (c : RequestConfig string)
    : AxiosResult string string (Results string) :=
  AxiosOk page2.

(** The executor holds the first grant, which is not about to expire, and
    talks to [loopServer]. *)
Definition holdsFirstGrant (w : World string string (Results string)) : Prop :=
  jobs (auth w).2 = [] ∧
  (∃ v, promises (auth w).2 !! grantPromise (auth w).1 = Some (Settles (Fulfilled v))) ∧
  grant (auth w).1 = Some firstGrant ∧
  expiresWithin firstGrant (now (auth w).2) (refreshIfWithinSecs (auth w).1) = false ∧
  server w = loopServer.

Definition worldLoop : World string string (Results string) := granted (newWorld loopServer).

(** [getListOfProducts] on the three pages. *)
Definition listOptions : FetchOptions string :=
  {| fo_path := Some "/products"; fo_url := None; fo_headers := None; fo_method := GET;
     fo_params := None; fo_data := None; fo_retry := None |}.

Definition worldList1 : World string string (Results string) :=
  world_after (request maskedSnapshot calculateDelay apiDefault listOptions worldPages)
    worldPages.

Definition worldList2 : World string string (Results string) :=
  world_after (followed "https://test-endpoint/p2" worldList1) worldList1.

Definition worldList3 : World string string (Results string) :=
  world_after (followed "https://test-endpoint/p3" worldList2) worldList2.

(** [single=1&double=2&double=3&novalue&blankvalue=] as search parameters. *)
Definition formPairs : list (string * string) :=
  [("single", "1"); ("double", "2"); ("double", "3"); ("novalue", ""); ("blankvalue", "")].

Definition parseJson (s : string) : option string :=
  if String.eqb s "[1]" then Some "array of 1" else None.

Definition parseForm (s : string) : list (string * string) := formPairs.

Definition jsonRequest : InternalConfig string :=
  {| ic_data := DString "[1]"; ic_content_type := Some "application/json; charset=utf-8" |}.

(** URLs with the [https] scheme. *)
Definition validURL (s : string) : bool := String.prefix "https://" s.

Definition defaultConfig : RawConfig :=
  {| cfg_endpoint := CfgString "https://test-endpoint";
     cfg_username := CfgString "test-username";
     cfg_password := CfgString "test-password";
     cfg_clientId := CfgString "test-client-id";
     cfg_clientSecret := CfgString "test-client-secret" |}.

(** A new executor whose token endpoint answers every exchange with 500. *)
Definition worldExchangeFails : World string string string :=
  {| auth := new_AkeneoAuth None 0;
     oauth := fun _ => AxiosFail (ThrownAxios (statusError 500 ∅));
     server := alwaysStatus 500;
     requests := 0%nat;
     trace := [] |}.

End Fixture.

(** * Properties *)

(** ** The credential cache *)

Section AuthFacts.

Variables Json Diag : Type.
Variable maskedSnapshot : AxiosError Json -> Diag.

Implicit Types (st : AuthState Json Diag) (e : Thrown Json Diag).

Lemma post_not_undefined net :
  AkeneoAuthApi_post maskedSnapshot net ≠ Fulfilled None.
Proof. by destruct net as [data|[e|e|d]]. Qed.

(** A continuation never schedules another one: the promise it goes on to
    await is the pending one it has just created. *)
Lemma resume_jobs job st : jobs (resume job st).2 = jobs st.2.
Proof.
  unfold resume. destruct (frames st.2 !! job.1) as [[| | |]|]; try done.
  - destruct job.2 as [v|e]; [|done].
    destruct (cached st.1 (now st.2)); [done|].
    simpl. unfold await. simpl.
    by rewrite list_lookup_middle.
  - by destruct job.2 as [[r|]|e].
Qed.

Lemma run_jobs_jobs js : ∀ st, jobs (run_jobs js st).2 = jobs st.2.
Proof.
  induction js as [|j js IH]; intros st; [done|].
  simpl. by rewrite IH, resume_jobs.
Qed.

(** After a macro-task the micro-task queue is empty. *)
Lemma drain_quiescent st : jobs (drain st).2 = [].
Proof. unfold drain. by rewrite run_jobs_jobs. Qed.

Lemma step_quiescent st ev : jobs st.2 = [] → jobs (step maskedSnapshot st ev).2 = [].
Proof. destruct ev; simpl; auto using drain_quiescent. Qed.

(** A caller that is alone on an instance whose handle has settled always gets
    an answer, and leaves the instance with a settled handle again. *)
Lemma getClientGrant_alone_returns net st :
  settled_handle st →
  ∃ r, (getClientGrant_alone maskedSnapshot net st).1 = Some r ∧
       settled_handle (getClientGrant_alone maskedSnapshot net st).2.
Proof.
  intros [Hjobs [s Hs]]. destruct st as [a rt]. simpl in Hjobs, Hs.
  unfold getClientGrant_alone.
  assert (step maskedSnapshot (a, rt) (Calls 1) =
          resume (length (frames rt), s)
            (a, set_frames (frames rt ++ [AtAwaitHandle]) rt)) as ->.
  { simpl. unfold drain, call, await. simpl. rewrite Hs. simpl. rewrite Hjobs. simpl.
    do 2 f_equal. destruct rt. simpl in Hjobs. by subst. }
  unfold resume. cbn [fst snd frames set_frames].
  rewrite list_lookup_middle; [|done].
  destruct s as [v|e].
  - destruct (cached a (now _)) as [g|] eqn:Hc.
    + cbn. rewrite list_lookup_insert_eq; [|rewrite length_app; simpl; lia].
      unfold outcome. cbn. rewrite list_lookup_insert_eq; [|rewrite length_app; simpl; lia].
      exists (inr g). split; [done|]. split; [done|]. by exists (Fulfilled v).
    + cbn. unfold await. cbn. rewrite list_lookup_middle; [|done]. cbn.
      rewrite list_lookup_insert_eq; [|rewrite length_app; simpl; lia].
      unfold drain, settle. cbn. rewrite list_lookup_insert_eq; [|rewrite length_app; simpl; lia].
      cbn. rewrite Hjobs. cbn. unfold resume. cbn.
      rewrite list_lookup_insert_eq; [|rewrite length_app; simpl; lia].
      pose proof (post_not_undefined net) as Hpost.
      destruct (AkeneoAuthApi_post maskedSnapshot net) as [[r|]|e]; [| done |].
      * unfold outcome. cbn.
        rewrite list_lookup_insert_eq;
          [|rewrite length_insert, length_app; simpl; lia].
        eexists. split; [done|]. split; [done|]. eexists. cbn.
        apply list_lookup_insert_eq. rewrite length_insert, length_app. simpl. lia.
      * unfold outcome. cbn.
        rewrite list_lookup_insert_eq;
          [|rewrite length_insert, length_app; simpl; lia].
        eexists. split; [done|]. split; [done|]. eexists. cbn.
        apply list_lookup_insert_eq. rewrite length_insert, length_app. simpl. lia.
  - cbn. rewrite list_lookup_insert_eq; [|rewrite length_app; simpl; lia].
    unfold outcome. cbn. rewrite list_lookup_insert_eq; [|rewrite length_app; simpl; lia].
    exists (inl e). split; [done|]. split; [done|]. by exists (Rejected e).
Qed.

Lemma new_AkeneoAuth_settled o t :
  settled_handle (new_AkeneoAuth (Json := Json) (Diag := Diag) o t).
Proof. split; [done|]. by exists (Fulfilled None). Qed.

(** C4 (fails, third part): once the stored handle [grantPromise] is a
    rejected promise, a later call of [getClientGrant()] throws the stored
    reason without starting a credential exchange, and leaves the instance
    as it was: the handle stays rejected for every call after it. *)
Theorem rejected_handle_poisons_later_calls st e :
  promises st.2 !! grantPromise st.1 = Some (Settles (Rejected e)) →
  jobs st.2 = [] →
  outcome (length (frames st.2)) (step maskedSnapshot st (Calls 1)) = Some (inl e) ∧
  exchanges (step maskedSnapshot st (Calls 1)).2 = exchanges st.2 ∧
  (step maskedSnapshot st (Calls 1)).1 = st.1 ∧
  promises (step maskedSnapshot st (Calls 1)).2 = promises st.2.
Proof.
  intros Hrej Hjobs. destruct st as [a rt]. simpl in *.
  unfold drain, call, await. simpl. rewrite Hrej. simpl. rewrite Hjobs. simpl.
  unfold resume. simpl. rewrite list_lookup_middle; [|done]. simpl.
  unfold outcome. simpl.
  rewrite list_lookup_insert_eq; [done|]. rewrite length_app. simpl. lia.
Qed.


(** [n] calls issued in one synchronous turn on a new instance: each has read
    the initial, already fulfilled handle, and its continuation is queued. *)
Lemma calls_on_new_instance (n : nat) o t :
  Nat.iter n call (new_AkeneoAuth (Json := Json) (Diag := Diag) o t) =
  ((new_AkeneoAuth (Json := Json) (Diag := Diag) o t).1,
   {| promises := [Settles (Fulfilled None)];
      frames := replicate n AtAwaitHandle;
      jobs := (λ c, (c, Fulfilled None)) <$> seq 0 n;
      now := t; exchanges := []; allocated := 0%nat |}).
Proof.
  induction n as [|n IH]; [done|].
  rewrite Nat.iter_succ, IH, replicate_S_end, seq_S, fmap_app.
  unfold call, await. simpl. by rewrite length_replicate.
Qed.

(** The queued continuations run one after the other; none finds a grant, so
    each starts an exchange of its own and replaces the handle. *)
Lemma continuations_each_refresh (m : nat) : ∀ (i : nat) st,
  grant st.1 = None →
  frames st.2 = replicate i AtAwaitExchange ++ replicate m AtAwaitHandle →
  grant (run_jobs ((λ c, (c, Fulfilled None)) <$> seq i m) st).1 = None ∧
  frames (run_jobs ((λ c, (c, Fulfilled None)) <$> seq i m) st).2
    = replicate (i + m) AtAwaitExchange ∧
  exchanges (run_jobs ((λ c, (c, Fulfilled None)) <$> seq i m) st).2
    = exchanges st.2 ++ seq (length (promises st.2)) m.
Proof.
  induction m as [|m IH]; intros i st Hgrant Hframes.
  - simpl. rewrite Hframes, Nat.add_0_r, !app_nil_r. done.
  - rewrite <- cons_seq, fmap_cons.
    change (run_jobs (?x :: ?l) ?s) with (run_jobs l (resume x s)).
    assert (frames st.2 !! i = Some AtAwaitHandle) as Hi.
    { rewrite Hframes, lookup_app_r; rewrite length_replicate; [|done].
      by rewrite Nat.sub_diag. }
    assert (resume (i, Fulfilled None) st =
            (set_grantPromise (length (promises st.2)) st.1,
             await i (length (promises st.2))
               (complete i AtAwaitExchange
                  (set_exchanges (exchanges st.2 ++ [length (promises st.2)])
                     (set_promises (promises st.2 ++ [Pending []]) st.2))))) as ->.
    { unfold resume. simpl. rewrite Hi. unfold cached. by rewrite Hgrant. }
    edestruct (IH (S i)) as (H1 & H2 & H3); [| |rewrite H1, H2, H3].
    + exact Hgrant.
    + rewrite replicate_S_end, <- app_assoc.
      unfold await. simpl. rewrite list_lookup_middle; [|done]. simpl.
      rewrite Hframes. replace i with (length (replicate i (@AtAwaitExchange Json Diag)) + 0)%nat
        at 1 by (rewrite length_replicate; lia).
      by rewrite insert_app_r.
    + split; [done|]. split; [f_equal; lia|].
      unfold await. simpl. rewrite list_lookup_middle; [|done]. simpl.
      rewrite length_insert, length_app, <- app_assoc. simpl.
      do 3 f_equal. lia.
Qed.

(** C1 (fails): [n] calls of [getClientGrant()] issued back to back in one
    turn on a new instance start [n] credential exchanges, one per call, and
    every call is suspended on the exchange that it started itself. *)
Theorem same_turn_calls_each_start_an_exchange (n : nat) o t :
  exchanges (run maskedSnapshot [Calls n] (new_AkeneoAuth o t)).2 = seq 1 n ∧
  frames (run maskedSnapshot [Calls n] (new_AkeneoAuth o t)).2 = replicate n AtAwaitExchange.
Proof.
  change (run maskedSnapshot [Calls n] (new_AkeneoAuth o t))
    with (drain (Nat.iter n call (new_AkeneoAuth (Json := Json) (Diag := Diag) o t))).
  rewrite calls_on_new_instance. unfold drain. cbn [fst snd jobs].
  destruct (continuations_each_refresh n 0
              ((new_AkeneoAuth (Json := Json) (Diag := Diag) o t).1,
               set_jobs []
                 {| promises := [Settles (Fulfilled None)];
                    frames := replicate n AtAwaitHandle;
                    jobs := (λ c, (c, Fulfilled None)) <$> seq 0 n;
                    now := t; exchanges := []; allocated := 0%nat |}))
    as (_ & H2 & H3); [done|done|].
  by rewrite H2, H3.
Qed.

End AuthFacts.

(** ** The executor *)

Section ApiFacts.

Variables Json Diag : Type.
Variable maskedSnapshot : AxiosError Json -> Diag.
Variable calculateDelay : Z -> AkeneoRetryConfig -> Z.
Variable R : Type.

Implicit Types (w : World Json Diag R) (error : Thrown Json Diag).
Implicit Types (config : RequestConfig Json) (retryConfig : AkeneoRetryConfig).

Lemma getClientGrant_world w r w1 :
  getClientGrant maskedSnapshot w = Some (r, w1) →
  oauth w1 = oauth w ∧ server w1 = server w ∧ requests w1 = requests w ∧
  trace w1 = trace w ++ [AskedGrant].
Proof.
  unfold getClientGrant. destruct (getClientGrant_alone _ _ _).1; [|done].
  intros [= <- <-]. done.
Qed.

Lemma sleep_world delay w :
  oauth (sleep maskedSnapshot delay w) = oauth w ∧
  server (sleep maskedSnapshot delay w) = server w ∧
  requests (sleep maskedSnapshot delay w) = requests w ∧
  trace (sleep maskedSnapshot delay w) = trace w ++ [Slept delay].
Proof. done. Qed.

Lemma request_loop_unfold fuel config retryConfig (c : nat) w :
  request_loop maskedSnapshot calculateDelay (S fuel) config retryConfig (Z.of_nat c) w =
  let attempt := axios config (before_attempt maskedSnapshot calculateDelay retryConfig c w) in
  match attempt.1 with
  | AxiosOk data => Some (inr data, attempt.2)
  | AxiosFail error =>
      if isRetryableError error then
        if Z.of_nat (S c) <=? maxRetries retryConfig
        then request_loop maskedSnapshot calculateDelay fuel config retryConfig
               (Z.of_nat (S c)) attempt.2
        else Some (inl (transformError maskedSnapshot error), attempt.2)
      else Some (inl (transformError maskedSnapshot error), attempt.2)
  end.
Proof.
  replace (Z.of_nat (S c)) with (Z.of_nat c + 1) by lia.
  destruct c; reflexivity.
Qed.


Lemma attempt_world config retryConfig c w :
  (axios config (before_attempt maskedSnapshot calculateDelay retryConfig c w)).1 = server w (requests w) config ∧
  oauth (axios config (before_attempt maskedSnapshot calculateDelay retryConfig c w)).2 = oauth w ∧
  server (axios config (before_attempt maskedSnapshot calculateDelay retryConfig c w)).2 = server w ∧
  requests (axios config (before_attempt maskedSnapshot calculateDelay retryConfig c w)).2 = S (requests w) ∧
  trace (axios config (before_attempt maskedSnapshot calculateDelay retryConfig c w)).2 =
    trace w ++ attempt_effects calculateDelay config retryConfig c.
Proof.
  destruct c; simpl; [done|]. by rewrite <- app_assoc.
Qed.

(** Every iteration fails with a retryable error: the loop runs until the
    retry count passes [maxRetries] and raises the last failure. *)
Lemma request_loop_exhausts (m : nat) : ∀ fuel config retryConfig (c : nat) w,
  maxRetries retryConfig = Z.of_nat (c + m) →
  (m < fuel)%nat →
  (∀ i, (i ≤ m)%nat → ∃ error,
      server w (requests w + i)%nat config = AxiosFail error ∧
      isRetryableError error = true) →
  ∃ w' last,
    request_loop maskedSnapshot calculateDelay fuel config retryConfig (Z.of_nat c) w
      = Some (inl (transformError maskedSnapshot last), w') ∧
    server w (requests w + m)%nat config = AxiosFail last ∧
    requests w' = (requests w + S m)%nat ∧
    trace w' = trace w ++ concat (attempt_effects calculateDelay config retryConfig <$> seq c (S m)).
Proof.
  induction m as [|m IH]; intros fuel config retryConfig c w Hmax Hfuel Hsrv.
  - destruct fuel as [|fuel]; [lia|].
    destruct (Hsrv 0%nat) as (error & Herr & Hretry); [lia|].
    rewrite Nat.add_0_r in Herr.
    destruct (attempt_world config retryConfig c w) as (H1 & _ & _ & H4 & H5).
    rewrite request_loop_unfold. cbv zeta. rewrite H1, Herr, Hretry.
    destruct (Z.leb_spec (Z.of_nat (S c)) (maxRetries retryConfig)); [lia|].
    eexists _, error. split; [done|]. rewrite Nat.add_0_r. split; [done|].
    split; [rewrite H4; lia|]. rewrite H5. simpl. by rewrite app_nil_r.
  - destruct fuel as [|fuel]; [lia|].
    destruct (Hsrv 0%nat) as (error & Herr & Hretry); [lia|].
    rewrite Nat.add_0_r in Herr.
    destruct (attempt_world config retryConfig c w) as (H1 & _ & H3 & H4 & H5).
    rewrite request_loop_unfold. cbv zeta. rewrite H1, Herr, Hretry.
    destruct (Z.leb_spec (Z.of_nat (S c)) (maxRetries retryConfig)); [|lia].
    destruct (IH fuel config retryConfig (S c) (axios config (before_attempt maskedSnapshot calculateDelay retryConfig c w)).2)
      as (w' & last & Hrun & Hlast & Hreq & Htr).
    + rewrite Hmax. lia.
    + lia.
    + intros i Hi. rewrite H3, H4. destruct (Hsrv (S i)) as (e' & He' & Hr'); [lia|].
      exists e'. split; [|done]. rewrite <- He'. f_equal. lia.
    + exists w', last. split; [done|].
      rewrite H3, H4 in Hlast. split; [rewrite <- Hlast; f_equal; lia|].
      split; [rewrite Hreq, H4; lia|].
      rewrite Htr, H5. rewrite <- app_assoc. f_equal.
Qed.

(** A first failure that is not retryable is raised at once. *)
Lemma request_loop_terminal fuel config retryConfig w error :
  server w (requests w) config = AxiosFail error →
  isRetryableError error = false →
  request_loop maskedSnapshot calculateDelay (S fuel) config retryConfig 0 w
    = Some (inl (transformError maskedSnapshot error), (axios config w).2).
Proof.
  intros Herr Hretry. change 0 with (Z.of_nat 0).
  rewrite request_loop_unfold. cbv zeta. simpl. by rewrite Herr, Hretry.
Qed.

(** With enough fuel the loop always finishes, and its effects are those of
    some [n >= 1] consecutive iterations. *)
Lemma request_loop_effects (m : nat) : ∀ fuel config retryConfig (c : nat) w,
  maxRetries retryConfig <= Z.of_nat (c + m) →
  (m < fuel)%nat →
  ∃ res w' n,
    request_loop maskedSnapshot calculateDelay fuel config retryConfig (Z.of_nat c) w
      = Some (res, w') ∧
    (1 ≤ n ≤ S m)%nat ∧
    requests w' = (requests w + n)%nat ∧
    trace w' = trace w ++ concat (attempt_effects calculateDelay config retryConfig <$> seq c n).
Proof.
  induction m as [|m IH]; intros fuel config retryConfig c w Hmax Hfuel;
    (destruct fuel as [|fuel]; [lia|]);
    destruct (attempt_world config retryConfig c w) as (H1 & _ & H3 & H4 & H5);
    rewrite request_loop_unfold; cbv zeta;
    (destruct (axios config (before_attempt maskedSnapshot calculateDelay retryConfig c w)).1 as [data|error];
     [ eexists _, _, 1%nat; split; [done|]; split; [lia|]; split; [rewrite H4; lia|];
       rewrite H5; simpl; by rewrite app_nil_r |]);
    (destruct (isRetryableError error);
     [| eexists _, _, 1%nat; split; [done|]; split; [lia|]; split; [rewrite H4; lia|];
        rewrite H5; simpl; by rewrite app_nil_r ]).
  - destruct (Z.leb_spec (Z.of_nat (S c)) (maxRetries retryConfig)); [lia|].
    eexists _, _, 1%nat; split; [done|]; split; [lia|]; split; [rewrite H4; lia|].
    rewrite H5; simpl; by rewrite app_nil_r.
  - destruct (Z.leb_spec (Z.of_nat (S c)) (maxRetries retryConfig)).
    + destruct (IH fuel config retryConfig (S c) (axios config (before_attempt maskedSnapshot calculateDelay retryConfig c w)).2)
        as (res & w' & n & Hrun & Hn & Hreq & Htr); [lia|lia|].
      exists res, w', (S n). split; [done|]. split; [lia|].
      split; [rewrite Hreq, H4; lia|].
      rewrite Htr, H5. rewrite <- app_assoc. f_equal.
    + eexists _, _, 1%nat; split; [done|]; split; [lia|]; split; [rewrite H4; lia|].
      rewrite H5; simpl; by rewrite app_nil_r.
Qed.


Lemma attempts_app (tr1 tr2 : list (Effect Json)) :
  attempts (tr1 ++ tr2) = attempts tr1 ++ attempts tr2.
Proof. apply omap_app. Qed.

Lemma attempts_loop config retryConfig (n : nat) : ∀ c,
  attempts (concat (attempt_effects calculateDelay config retryConfig <$> seq c n))
    = replicate n config.
Proof.
  induction n as [|n IH]; intros c; [done|].
  simpl. rewrite attempts_app, IH. by destruct c.
Qed.

Lemma http_failure_retryable (e : AxiosError Json) (status : Z) :
  http_failure e status →
  isRetryableError (ThrownAxios (Diag := Diag) e) = bool_decide (status ∈ RETRYABLE_STATUS_CODES).
Proof.
  intros (Hreq & r & Hresp & Hstatus). unfold isRetryableError.
  by rewrite Hreq, Hresp, Hstatus.
Qed.

Lemma getRequestOptions_grant api options w g w1 :
  getClientGrant maskedSnapshot w = Some (inr g, w1) →
  getRequestOptions maskedSnapshot api options w = Some (inr (request_options api options g), w1).
Proof. unfold getRequestOptions. by intros ->. Qed.

(** The request proper, once the grant is there. *)
Lemma request_grant api options w g w1 :
  getClientGrant maskedSnapshot w = Some (inr g, w1) →
  request maskedSnapshot calculateDelay api options w =
  request_loop maskedSnapshot calculateDelay
    (S (Z.to_nat (maxRetries (getRetryConfig api (fo_retry options)))))
    (request_options api options g) (getRetryConfig api (fo_retry options)) 0 w1.
Proof. intros Hg. unfold request. by rewrite (getRequestOptions_grant _ _ _ _ _ Hg). Qed.

(** A first answer that is not retryable: one attempt, no delay, the failure
    is raised after conversion. *)
Lemma request_terminal api options w g w1 error :
  getClientGrant maskedSnapshot w = Some (inr g, w1) →
  server w (requests w) (request_options api options g) = AxiosFail error →
  isRetryableError error = false →
  ∃ w',
    request maskedSnapshot calculateDelay api options w
      = Some (inl (transformError maskedSnapshot error), w') ∧
    requests w' = S (requests w) ∧
    trace w' = trace w ++ [AskedGrant; Sent (request_options api options g)].
Proof.
  intros Hg Hsrv Hretry.
  destruct (getClientGrant_world _ _ _ Hg) as (_ & H2 & H3 & H4).
  rewrite (request_grant _ _ _ _ _ Hg).
  rewrite (request_loop_terminal _ _ _ _ error); [|by rewrite H2, H3|done].
  eexists. split; [done|]. simpl. rewrite H3, H4. split; [done|]. by rewrite <- app_assoc.
Qed.

(** Every answer is a retryable failure: [maxRetries + 1] attempts, then the
    last failure is raised after conversion. *)
Lemma request_exhausts api options w g w1 (k : nat) :
  maxRetries (getRetryConfig api (fo_retry options)) = Z.of_nat k →
  getClientGrant maskedSnapshot w = Some (inr g, w1) →
  (∀ i, (i ≤ k)%nat → ∃ error,
      server w (requests w + i)%nat (request_options api options g) = AxiosFail error ∧
      isRetryableError error = true) →
  ∃ w' last,
    request maskedSnapshot calculateDelay api options w
      = Some (inl (transformError maskedSnapshot last), w') ∧
    server w (requests w + k)%nat (request_options api options g) = AxiosFail last ∧
    requests w' = (requests w + (k + 1))%nat ∧
    attempts (trace w') =
      attempts (trace w) ++ replicate (k + 1) (request_options api options g).
Proof.
  intros Hmax Hg Hsrv.
  destruct (getClientGrant_world _ _ _ Hg) as (_ & H2 & H3 & H4).
  rewrite (request_grant _ _ _ _ _ Hg).
  destruct (request_loop_exhausts k (S (Z.to_nat (maxRetries (getRetryConfig api (fo_retry options)))))
              (request_options api options g) (getRetryConfig api (fo_retry options)) 0%nat w1)
    as (w' & last & Hrun & Hlast & Hreq & Htr).
  - by rewrite Hmax.
  - rewrite Hmax. lia.
  - intros i Hi. rewrite H2, H3. by apply Hsrv.
  - exists w', last. change (Z.of_nat 0) with 0 in Hrun. split; [done|].
    rewrite H2, H3 in Hlast. split; [done|]. split; [rewrite Hreq, H3; lia|].
    rewrite Htr, H4, !attempts_app, attempts_loop. simpl.
    rewrite app_nil_r. by replace (k + 1)%nat with (S k) by lia.
Qed.


(** From an instance at rest every request finishes: it returns the response
    or raises. *)
Lemma request_returns api options w :
  settled_handle (auth w) →
  ∃ res w', request maskedSnapshot calculateDelay api options w = Some (res, w').
Proof.
  intros Hrest.
  destruct (getClientGrant_alone_returns Json Diag maskedSnapshot
              (oauth w (length (exchanges (auth w).2))) (auth w) Hrest) as (r & Hr & _).
  assert (∃ w1, getClientGrant maskedSnapshot w = Some (r, w1)) as [w1 Hg].
  { unfold getClientGrant. rewrite Hr. by eexists. }
  destruct r as [e|g].
  - exists (inl e), w1. unfold request, getRequestOptions. by rewrite Hg.
  - rewrite (request_grant _ _ _ _ _ Hg).
    destruct (request_loop_effects
                (Z.to_nat (maxRetries (getRetryConfig api (fo_retry options))))
                (S (Z.to_nat (maxRetries (getRetryConfig api (fo_retry options)))))
                (request_options api options g) (getRetryConfig api (fo_retry options))
                0%nat w1) as (res & w' & n & Hrun & _); [lia|lia|].
    by exists res, w'.
Qed.

(** C3: with [maxRetries = k] and a REST endpoint that answers every attempt
    with status 500, a request (whose grant is obtained) makes exactly [k + 1]
    attempts, all with the same configuration, and then raises the failure
    of the last attempt converted by [AkeneoError.fromAxiosError]. *)
Theorem request_always_500_attempts api options w g w1 (k : nat) :
  maxRetries (getRetryConfig api (fo_retry options)) = Z.of_nat k →
  getClientGrant maskedSnapshot w = Some (inr g, w1) →
  (∀ n config, ∃ e, server w n config = AxiosFail (ThrownAxios e) ∧ http_failure e 500) →
  ∃ w' last,
    request maskedSnapshot calculateDelay api options w
      = Some (inl (ThrownAkeneo (fromAxiosError maskedSnapshot last)), w') ∧
    server w (requests w + k)%nat (request_options api options g)
      = AxiosFail (ThrownAxios last) ∧
    requests w' = (requests w + (k + 1))%nat ∧
    attempts (trace w') =
      attempts (trace w) ++ replicate (k + 1) (request_options api options g).
Proof.
  intros Hmax Hg Hsrv.
  destruct (request_exhausts api options w g w1 k Hmax Hg) as (w' & last & Hrun & Hlast & Hrest).
  - intros i _. destruct (Hsrv (requests w + i)%nat (request_options api options g))
      as (e & He & H500).
    exists (ThrownAxios e). split; [done|]. by rewrite (http_failure_retryable e 500).
  - destruct (Hsrv (requests w + k)%nat (request_options api options g)) as (e & He & _).
    rewrite He in Hlast. injection Hlast as <-. by exists w', e.
Qed.


(** C10: [transformError] (and the [catch] of [AkeneoAuthApi.post]) hands back
    unchanged any error without the axios marker and converts axios errors
    only; so when every attempt of a request fails with such errors, the
    caller receives the last of them as it was thrown. *)
Theorem transformError_raw_passthrough api options w g w1 (k : nat) :
  maxRetries (getRetryConfig api (fo_retry options)) = Z.of_nat k →
  getClientGrant maskedSnapshot w = Some (inr g, w1) →
  (∀ n config, ∃ error, server w n config = AxiosFail error ∧ isAxiosError error = false) →
  (∀ error : Thrown Json Diag,
      isAxiosError error = false →
      transformError maskedSnapshot error = error ∧
      AkeneoAuthApi_post maskedSnapshot (AxiosFail error) = Rejected error) ∧
  (∀ e : AxiosError Json,
      transformError maskedSnapshot (ThrownAxios e)
        = ThrownAkeneo (fromAxiosError maskedSnapshot e) ∧
      AkeneoAuthApi_post maskedSnapshot (AxiosFail (ThrownAxios e))
        = Rejected (ThrownAkeneo (fromAxiosError maskedSnapshot e))) ∧
  ∃ w' last,
    request maskedSnapshot calculateDelay api options w = Some (inl last, w') ∧
    server w (requests w + k)%nat (request_options api options g) = AxiosFail last ∧
    isAxiosError last = false.
Proof.
  intros Hmax Hg Hsrv. split; [|split].
  - by intros [e| |].
  - done.
  - destruct (request_exhausts api options w g w1 k Hmax Hg) as (w' & last & Hrun & Hlast & _).
    + intros i _. destruct (Hsrv (requests w + i)%nat (request_options api options g))
        as (error & He & Hraw).
      exists error. split; [done|]. by destruct error.
    + destruct (Hsrv (requests w + k)%nat (request_options api options g))
        as (error & He & Hraw).
      rewrite He in Hlast. injection Hlast as <-.
      exists w', error. split; [|done]. rewrite Hrun. by destruct error.
Qed.

(** C2 (the executor has no 429 path): a first answer with status 429 is not
    retried, whatever [max429Retries] and the [Retry-After] header say: one
    attempt, no delay, and the converted error is raised. *)
Theorem request_429_single_attempt api options w g w1 (e429 : AxiosError Json) :
  getClientGrant maskedSnapshot w = Some (inr g, w1) →
  server w (requests w) (request_options api options g) = AxiosFail (ThrownAxios e429) →
  http_failure e429 429 →
  ∃ w',
    request maskedSnapshot calculateDelay api options w
      = Some (inl (ThrownAkeneo (fromAxiosError maskedSnapshot e429)), w') ∧
    trace w' = trace w ++ [AskedGrant; Sent (request_options api options g)].
Proof.
  intros Hg Hsrv H429.
  destruct (request_terminal api options w g w1 _ Hg Hsrv) as (w' & Hrun & _ & Htr).
  - by rewrite (http_failure_retryable e429 429).
  - by exists w'.
Qed.

(** C5 (amended): the configuration handed to axios is built from the grant
    that the token cache returned.  Its headers are the client defaults
    ([axios.defaults.headers]), then the bearer [Authorization] of that
    grant, then the caller's headers, later entries winning: every
    caller-supplied header is in it with the caller's value (also for
    [Authorization] and [Content-Type]); [Authorization] is the bearer token
    of that grant when the caller supplies no such header; and every other
    name that the caller does not supply is there exactly as in the client
    defaults. *)
Theorem request_headers_caller_precedence api options w g w1 :
  getClientGrant maskedSnapshot w = Some (inr g, w1) →
  getRequestOptions maskedSnapshot api options w
    = Some (inr (request_options api options g), w1) ∧
  (∀ name value,
      default ∅ (fo_headers options) !! name = Some value →
      rc_headers (request_options api options g) !! name = Some (HString value)) ∧
  (default ∅ (fo_headers options) !! "Authorization" = None →
   rc_headers (request_options api options g) !! "Authorization"
     = Some (HString ("Bearer " +:+ accessToken g))) ∧
  (∀ name,
      default ∅ (fo_headers options) !! name = None →
      name ≠ "Authorization" →
      rc_headers (request_options api options g) !! name
        = axios_defaults_headers api !! name).
Proof.
  intros Hg. split; [by apply getRequestOptions_grant|]. simpl. unfold merge_headers.
  split; [|split].
  - intros name value H. apply lookup_union_Some_l. by rewrite lookup_fmap, H.
  - intros H. rewrite lookup_union_r; [|by rewrite lookup_fmap, H].
    apply lookup_insert_eq.
  - intros name H Hne. rewrite lookup_union_r; [|by rewrite lookup_fmap, H].
    by apply lookup_insert_ne.
Qed.

(** C6 (amended): a request asks the token cache once, before the first
    attempt; it then makes [n >= 1] attempts, all with the configuration
    built from that grant, and before each retried attempt it waits the
    delay [calculateDelay retryCount retryConfig]. *)
Theorem request_single_grant_then_delays api options w g w1 :
  getClientGrant maskedSnapshot w = Some (inr g, w1) →
  ∃ res w' (n : nat),
    request maskedSnapshot calculateDelay api options w = Some (res, w') ∧
    (1 ≤ n)%nat ∧
    trace w' = trace w ++ AskedGrant ::
      loop_effects calculateDelay (request_options api options g)
        (getRetryConfig api (fo_retry options)) n.
Proof.
  intros Hg.
  destruct (getClientGrant_world _ _ _ Hg) as (_ & _ & _ & H4).
  rewrite (request_grant _ _ _ _ _ Hg).
  destruct (request_loop_effects (Z.to_nat (maxRetries (getRetryConfig api (fo_retry options))))
              (S (Z.to_nat (maxRetries (getRetryConfig api (fo_retry options)))))
              (request_options api options g) (getRetryConfig api (fo_retry options)) 0%nat w1)
    as (res & w' & n & Hrun & Hn & _ & Htr); [lia|lia|].
  exists res, w', n. change (Z.of_nat 0) with 0 in Hrun. split; [done|]. split; [lia|].
  rewrite Htr, H4. by rewrite <- app_assoc.
Qed.

End ApiFacts.

(** ** The pagination walker *)

Section PaginationFacts.

Variables Json Diag : Type.
Variable maskedSnapshot : AxiosError Json -> Diag.
Variable calculateDelay : Z -> AkeneoRetryConfig -> Z.
Variable T : Type.

Implicit Types (r page : Results T) (h : list (Results T)) (pages : list (Results T)).
Implicit Types (w : World Json Diag (Results T)).

Lemma push_items_nil r : push_items [] r = r.
Proof. destruct r. unfold push_items. simpl. by rewrite app_nil_r. Qed.

Lemma push_items_push (a b : list T) r :
  push_items b (push_items a r) = push_items (a ++ b) r.
Proof. unfold push_items. simpl. by rewrite app_assoc. Qed.

(** One turn of the loop body on the store: the new page is allocated, its
    items are pushed onto the object at [response]. *)
Lemma store_after_page h (response : nat) r page :
  h !! response = Some r →
  (match (h ++ [page]) !! length h with
   | Some p => alter (push_items (_embedded_items p)) response (h ++ [page])
   | None => h ++ [page]
   end) !! response = Some (push_items (_embedded_items page) r).
Proof.
  intros Hr. rewrite list_lookup_middle; [|done].
  rewrite list_lookup_alter_eq, lookup_app_l; [by rewrite Hr|].
  by apply lookup_lt_Some in Hr.
Qed.

Lemma pages_loop_chain api (response : nat) w nextHref pages w' :
  chain maskedSnapshot calculateDelay api w nextHref pages w' →
  ∀ fuel h r,
    h !! response = Some r →
    (length pages ≤ fuel)%nat →
    ∃ h',
      pages_loop maskedSnapshot calculateDelay fuel api response nextHref h w
        = Some (inr (), h', w') ∧
      h' !! response = Some (push_items (concat (_embedded_items <$> pages)) r).
Proof.
  induction 1 as [w nextHref Hfalsy | w url page w1 pages w2 Htruthy Hfollow Hchain IH];
    intros fuel h r Hr Hfuel.
  - exists h. rewrite push_items_nil. split; [|done].
    destruct fuel, nextHref as [url|]; simpl in *; by rewrite ?Hfalsy.
  - destruct fuel as [|fuel]; [simpl in Hfuel; lia|].
    simpl. rewrite Htruthy, Hfollow.
    edestruct (IH fuel) as (h' & Hrun & Hlook).
    + by apply (store_after_page h response r page).
    + simpl in Hfuel. lia.
    + exists h'. split; [exact Hrun|]. by rewrite Hlook, push_items_push.
Qed.

(** C7: for a first page followed by a finite chain of pages linked through
    [_links.next], draining (with a loop bound that covers the chain) leaves
    at the reference of the first page one result whose items are the items
    of all pages in page order and whose [_links] holds only [first]. *)
Theorem appendRemainingPages_concatenates api (response : nat) r h pages w w' (fuel : nat) :
  h !! response = Some r →
  chain maskedSnapshot calculateDelay api w (next_href r) pages w' →
  (length pages ≤ fuel)%nat →
  ∃ h',
    appendRemainingPages maskedSnapshot calculateDelay fuel api response h w
      = Some (inr (), h', w') ∧
    h' !! response =
      Some {| _links := {| self := None; first := first (_links r);
                           previous := None; next := None |};
              current_page := current_page r;
              items_count := items_count r;
              _embedded_items := _embedded_items r ++ concat (_embedded_items <$> pages) |}.
Proof.
  intros Hr Hchain Hfuel.
  destruct (pages_loop_chain api response w _ pages w' Hchain fuel h r Hr Hfuel)
    as (h' & Hrun & Hlook).
  exists (alter keep_first_link response h'). unfold appendRemainingPages.
  rewrite Hr, Hrun. split; [done|]. by rewrite list_lookup_alter_eq, Hlook.
Qed.

Lemma pages_loop_frame api (response : nat) (fuel : nat) : ∀ nextHref h w res h' w',
  pages_loop maskedSnapshot calculateDelay fuel api response nextHref h w
    = Some (res, h', w') →
  (response < length h)%nat →
  (length h ≤ length h')%nat ∧
  (∀ l, l ≠ response → (l < length h)%nat → h' !! l = h !! l) ∧
  ∃ more, h' !! response = push_items more <$> h !! response.
Proof.
  induction fuel as [|fuel IH]; intros nextHref h w res h' w' Hrun Hin.
  - assert (h' = h) as ->.
    { destruct nextHref as [url|]; simpl in Hrun; [destruct (truthy url)|]; congruence. }
    split; [done|]. split; [done|]. exists [].
    destruct (h !! response); simpl; by rewrite ?push_items_nil.
  - destruct nextHref as [url|]; simpl in Hrun; [destruct (truthy url)|].
    + destruct (followLink _ _ _ _ _) as [[[e|data] w1]|]; [| |done].
      { injection Hrun as <- <- <-. split; [done|]. split; [done|]. exists [].
        destruct (h !! response); simpl; by rewrite ?push_items_nil. }
      rewrite list_lookup_middle in Hrun; [|done].
      apply IH in Hrun; [|rewrite length_alter, length_app; simpl; lia].
      destruct Hrun as (Hlen & Hother & more & Hsame).
      rewrite length_alter, length_app in Hlen. simpl in Hlen.
      split; [lia|]. split.
      * intros l Hne Hl. rewrite Hother; [|done|rewrite length_alter, length_app; lia].
        rewrite list_lookup_alter_ne; [|done]. by apply lookup_app_l.
      * exists (_embedded_items data ++ more).
        rewrite Hsame, list_lookup_alter_eq, lookup_app_l; [|done].
        destruct (h !! response); simpl; by rewrite ?push_items_push.
    + injection Hrun as <- <- <-. split; [done|]. split; [done|]. exists [].
      destruct (h !! response); simpl; by rewrite ?push_items_nil.
    + injection Hrun as <- <- <-. split; [done|]. split; [done|]. exists [].
      destruct (h !! response); simpl; by rewrite ?push_items_nil.
Qed.

(** C9: whenever [appendRemainingPages] finishes (normally or by a thrown
    error), the object passed in is still the one at the same reference, its
    [current_page] and [items_count] are those of the first page, and no
    other object that existed before has changed. *)
Theorem appendRemainingPages_frame api (response : nat) r h w (fuel : nat) res h' w' :
  h !! response = Some r →
  appendRemainingPages maskedSnapshot calculateDelay fuel api response h w
    = Some (res, h', w') →
  (∃ r', h' !! response = Some r' ∧
         current_page r' = current_page r ∧ items_count r' = items_count r) ∧
  (∀ l, l ≠ response → (l < length h)%nat → h' !! l = h !! l) ∧
  (length h ≤ length h')%nat.
Proof.
  intros Hr Hrun. unfold appendRemainingPages in Hrun. rewrite Hr in Hrun.
  destruct (pages_loop _ _ _ _ _ _ _ _) as [[[res1 h1] w1]|] eqn:Hloop; [|done].
  apply pages_loop_frame in Hloop; [|by apply lookup_lt_Some in Hr].
  destruct Hloop as (Hlen & Hother & more & Hsame). rewrite Hr in Hsame. simpl in Hsame.
  destruct res1 as [e|[]]; injection Hrun as <- <- <-.
  - split; [|done]. by exists (push_items more r).
  - split; [|split].
    + exists (keep_first_link (push_items more r)).
      by rewrite list_lookup_alter_eq, Hsame.
    + intros l Hne Hl. rewrite list_lookup_alter_ne; [|done]. by apply Hother.
    + by rewrite length_alter.
Qed.

End PaginationFacts.

(** ** More on the credential cache *)

Lemma insert_last {A : Type} (l : list A) (x y : A) :
  <[length l := y]> (l ++ [x]) = l ++ [y].
Proof. rewrite insert_app_r_alt; [|done]. by rewrite Nat.sub_diag. Qed.

Section AuthMore.

Variables Json Diag : Type.
Variable maskedSnapshot : AxiosError Json -> Diag.

Implicit Types (st : AuthState Json Diag) (e : Thrown Json Diag).

Lemma set_jobs_id (rt : Runtime Json Diag) : jobs rt = [] → set_jobs [] rt = rt.
Proof. destruct rt. simpl. by intros ->. Qed.

(** A call issued alone on an instance at rest runs its first continuation in
    the same turn. *)
Lemma lone_call st s :
  jobs st.2 = [] →
  promises st.2 !! grantPromise st.1 = Some (Settles s) →
  step maskedSnapshot st (Calls 1) =
  resume (length (frames st.2), s) (st.1, set_frames (frames st.2 ++ [AtAwaitHandle]) st.2).
Proof.
  intros Hjobs Hs. destruct st as [a rt]. simpl in *.
  unfold drain, call, await. simpl. rewrite Hs. simpl. rewrite Hjobs. simpl.
  do 2 f_equal. destruct rt. simpl in Hjobs. by subst.
Qed.

(** A lone caller that finds a grant which is not about to expire gets it in
    the same turn; only its completed frame is added. *)
Lemma lone_call_cached net st v g :
  jobs st.2 = [] →
  promises st.2 !! grantPromise st.1 = Some (Settles (Fulfilled v)) →
  grant st.1 = Some g →
  expiresWithin g (now st.2) (refreshIfWithinSecs st.1) = false →
  getClientGrant_alone maskedSnapshot net st
    = (Some (inr g), (st.1, set_frames (frames st.2 ++ [Returned g]) st.2)).
Proof.
  intros Hjobs Hs Hg Hfresh. unfold getClientGrant_alone.
  rewrite (lone_call st _ Hjobs Hs). unfold resume. cbn [fst snd frames set_frames].
  rewrite list_lookup_middle; [|done].
  unfold cached. rewrite Hg. cbn [now set_frames]. rewrite Hfresh. cbn.
  rewrite list_lookup_insert_eq; [|rewrite length_app; simpl; lia].
  unfold outcome. cbn. rewrite list_lookup_insert_eq; [|rewrite length_app; simpl; lia].
  unfold complete, set_frames. cbn. by rewrite insert_last.
Qed.

(** X1: on an instance at rest whose handle [grantPromise] is fulfilled (the
    initial handle, or the last exchange succeeded), a caller that is alone
    and finds a grant that is not about to expire is handed that same grant
    object; no exchange is started and nothing of the instance changes. *)
Theorem cached_grant_is_reused net st v g :
  jobs st.2 = [] →
  promises st.2 !! grantPromise st.1 = Some (Settles (Fulfilled v)) →
  grant st.1 = Some g →
  expiresWithin g (now st.2) (refreshIfWithinSecs st.1) = false →
  getClientGrant_alone maskedSnapshot net st
    = (Some (inr g), (st.1, set_frames (frames st.2 ++ [Returned g]) st.2)).
Proof. apply lone_call_cached. Qed.

(** The state in which a lone caller that found no usable grant waits for its
    exchange. *)
Lemma lone_call_refreshes st v :
  jobs st.2 = [] →
  promises st.2 !! grantPromise st.1 = Some (Settles (Fulfilled v)) →
  cached st.1 (now st.2) = None →
  step maskedSnapshot st (Calls 1) =
  (set_grantPromise (length (promises st.2)) st.1,
   {| promises := promises st.2 ++ [Pending [length (frames st.2)]];
      frames := frames st.2 ++ [AtAwaitExchange];
      jobs := [];
      now := now st.2;
      exchanges := exchanges st.2 ++ [length (promises st.2)];
      allocated := allocated st.2 |}).
Proof.
  intros Hjobs Hs Hc. rewrite (lone_call st _ Hjobs Hs).
  unfold resume. cbn [fst snd frames set_frames].
  rewrite list_lookup_middle; [|done]. cbn [now set_frames]. rewrite Hc.
  unfold await. cbn. rewrite list_lookup_middle; [|done].
  f_equal. unfold set_promises. cbn. rewrite Hjobs. f_equal.
  - by rewrite insert_last.
  - by rewrite insert_last.
Qed.

(** X2: a lone caller that finds no usable grant (none, or one about to
    expire) starts exactly one exchange; when it is answered, the caller
    gets a newly constructed grant, which is also the one stored, and the
    instance is at rest again. *)
Theorem refresh_stores_new_grant r st v :
  jobs st.2 = [] →
  promises st.2 !! grantPromise st.1 = Some (Settles (Fulfilled v)) →
  cached st.1 (now st.2) = None →
  ∃ st',
    getClientGrant_alone maskedSnapshot (AxiosOk r) st
      = (Some (inr (new_AkeneoGrant (allocated st.2) (now st.2) r)), st') ∧
    grant st'.1 = Some (new_AkeneoGrant (allocated st.2) (now st.2) r) ∧
    exchanges st'.2 = exchanges st.2 ++ [length (promises st.2)] ∧
    allocated st'.2 = S (allocated st.2) ∧
    settled_handle st'.
Proof.
  intros Hjobs Hs Hc. unfold getClientGrant_alone.
  rewrite (lone_call_refreshes st v Hjobs Hs Hc). cbn [fst snd frames grantPromise set_grantPromise].
  rewrite list_lookup_middle; [|done].
  cbn [step AkeneoAuthApi_post fst snd]. unfold settle. cbn [promises].
  rewrite list_lookup_middle; [|done].
  unfold drain. cbn. unfold resume. cbn.
  rewrite list_lookup_middle; [|done]. cbn.
  unfold outcome. cbn.
  rewrite list_lookup_insert_eq; [|rewrite length_app; simpl; lia].
  eexists. split; [done|]. cbn. split; [done|]. split; [done|]. split; [done|].
  split; [done|]. eexists. cbn.
  rewrite insert_last. by apply list_lookup_middle.
Qed.

(** A lone caller whose exchange fails: the converted failure is thrown and
    stored in the handle; the grant field is not written. *)
Lemma lone_call_failed_refresh error st v :
  jobs st.2 = [] →
  promises st.2 !! grantPromise st.1 = Some (Settles (Fulfilled v)) →
  cached st.1 (now st.2) = None →
  ∃ st',
    getClientGrant_alone maskedSnapshot (AxiosFail error) st
      = (Some (inl (transformError maskedSnapshot error)), st') ∧
    grant st'.1 = grant st.1 ∧
    exchanges st'.2 = exchanges st.2 ++ [length (promises st.2)] ∧
    promises st'.2 !! grantPromise st'.1
      = Some (Settles (Rejected (transformError maskedSnapshot error))) ∧
    jobs st'.2 = [].
Proof.
  intros Hjobs Hs Hc. unfold getClientGrant_alone.
  rewrite (lone_call_refreshes st v Hjobs Hs Hc). cbn [fst snd frames grantPromise set_grantPromise].
  rewrite list_lookup_middle; [|done].
  assert (AkeneoAuthApi_post maskedSnapshot (AxiosFail error)
          = Rejected (transformError maskedSnapshot error)) as Hpost by (by destruct error).
  cbn [step fst snd]. rewrite Hpost. unfold settle. cbn [promises].
  rewrite list_lookup_middle; [|done].
  unfold drain. cbn. unfold resume. cbn.
  rewrite list_lookup_middle; [|done]. cbn.
  unfold outcome. cbn.
  rewrite list_lookup_insert_eq; [|rewrite length_app; simpl; lia].
  eexists. split; [done|]. cbn. split; [done|]. split; [done|]. split; [|done].
  rewrite insert_last. by apply list_lookup_middle.
Qed.


(** X3: when the exchange started by a lone caller fails, the caller gets the
    converted failure, the grant stored before (also an expiring one) is
    left as it was, and the handle holds the rejection. *)
Theorem failed_refresh_keeps_grant error st v :
  jobs st.2 = [] →
  promises st.2 !! grantPromise st.1 = Some (Settles (Fulfilled v)) →
  cached st.1 (now st.2) = None →
  ∃ st',
    getClientGrant_alone maskedSnapshot (AxiosFail error) st
      = (Some (inl (transformError maskedSnapshot error)), st') ∧
    grant st'.1 = grant st.1 ∧
    exchanges st'.2 = exchanges st.2 ++ [length (promises st.2)] ∧
    promises st'.2 !! grantPromise st'.1
      = Some (Settles (Rejected (transformError maskedSnapshot error))) ∧
    jobs st'.2 = [].
Proof. apply lone_call_failed_refresh. Qed.

(** The first call on a new instance, alone in its turn, starts the exchange
    behind promise 1 and waits for it. *)
Lemma first_call_state o t :
  run maskedSnapshot [Calls 1] (new_AkeneoAuth (Json := Json) (Diag := Diag) o t) =
  (set_grantPromise 1 (new_AkeneoAuth (Json := Json) (Diag := Diag) o t).1,
   {| promises := [Settles (Fulfilled None); Pending [0%nat]];
      frames := [AtAwaitExchange];
      jobs := []; now := t; exchanges := [1%nat]; allocated := 0%nat |}).
Proof. reflexivity. Qed.

(** Calls that arrive while that exchange is in flight register behind the
    caller that started it. *)
Lemma waiting_calls_state (a : AkeneoAuth) t (n : nat) :
  grantPromise a = 1%nat →
  Nat.iter n call
    (a, {| promises := [Settles (Fulfilled None); Pending [0%nat]];
           frames := [AtAwaitExchange];
           jobs := []; now := t; exchanges := [1%nat]; allocated := 0%nat |}) =
  (a, {| promises := [Settles (Fulfilled (Json := Json) (Diag := Diag) None);
                      Pending (0%nat :: seq 1 n)];
         frames := AtAwaitExchange :: replicate n AtAwaitHandle;
         jobs := []; now := t; exchanges := [1%nat]; allocated := 0%nat |}).
Proof.
  intros Hp. induction n as [|n IH]; [done|].
  rewrite Nat.iter_succ, IH, replicate_S_end, seq_S.
  unfold call, await. cbn. rewrite Hp. cbn. by rewrite length_replicate.
Qed.

Lemma resume_ends_with (c : nat) s f st :
  frames st.2 !! c = Some AtAwaitHandle →
  ends_with s f st.1 (now st.2) →
  resume (c, s) st = (st.1, complete c f st.2).
Proof.
  intros Hc Hend. unfold resume. cbn [fst snd]. rewrite Hc.
  destruct s as [v|e]; simpl in Hend.
  - destruct Hend as (g & Hg & ->). by rewrite Hg.
  - by subst.
Qed.

Lemma waiting_continuations (m : nat) : ∀ (pre : list (Frame Json Diag)) s f st,
  frames st.2 = pre ++ replicate m AtAwaitHandle →
  ends_with s f st.1 (now st.2) →
  run_jobs ((λ c, (c, s)) <$> seq (length pre) m) st
    = (st.1, set_frames (pre ++ replicate m f) st.2).
Proof.
  induction m as [|m IH]; intros pre s f st Hframes Hend.
  - simpl. rewrite app_nil_r in *. destruct st as [a rt]. simpl in *.
    f_equal. destruct rt. simpl in *. by subst.
  - rewrite <- cons_seq, fmap_cons.
    change (run_jobs (?x :: ?l) ?s0) with (run_jobs l (resume x s0)).
    rewrite (resume_ends_with (length pre) s f st);
      [|by rewrite Hframes; apply list_lookup_middle|done].
    replace (S (length pre)) with (length (pre ++ [f])) by (rewrite length_app; simpl; lia).
    rewrite (IH (pre ++ [f]) s f).
    + cbn. unfold set_frames. cbn. by rewrite <- app_assoc.
    + cbn. rewrite Hframes. cbn.
      rewrite insert_app_r_alt; [|done]. rewrite Nat.sub_diag. cbn. by rewrite <- app_assoc.
    + done.
Qed.

Lemma drain_idle st : jobs st.2 = [] → drain st = st.
Proof.
  intros H. unfold drain. rewrite H. destruct st as [a rt]. simpl in *.
  by rewrite set_jobs_id.
Qed.

(** X4: after one call in a turn of its own, [n] further calls that arrive
    while its exchange is in flight all wait for that exchange: one
    exchange is made and all [n + 1] calls return the same grant object
    (provided the new grant is not itself about to expire). *)
Theorem waiting_callers_share_the_exchange (n : nat) o t ms r :
  expiresWithin (new_AkeneoGrant 0 (t + ms) r) (t + ms)
    (default default_refreshIfWithinSecs o) = false →
  run maskedSnapshot [Calls 1; Calls n; Elapses ms; Answers 1 (AxiosOk r)]
    (new_AkeneoAuth (Json := Json) (Diag := Diag) o t)
  = ({| refreshIfWithinSecs := default default_refreshIfWithinSecs o;
        grant := Some (new_AkeneoGrant 0 (t + ms) r);
        grantPromise := 1%nat |},
     {| promises := [Settles (Fulfilled None); Settles (Fulfilled (Some r))];
        frames := replicate (S n) (Returned (new_AkeneoGrant 0 (t + ms) r));
        jobs := []; now := t + ms; exchanges := [1%nat]; allocated := 1%nat |}).
Proof.
  intros Hfresh.
  change (run maskedSnapshot [Calls 1; Calls n; Elapses ms; Answers 1 (AxiosOk r)]
            (new_AkeneoAuth o t))
    with (step maskedSnapshot
            (step maskedSnapshot
               (drain (Nat.iter n call (run maskedSnapshot [Calls 1] (new_AkeneoAuth o t))))
               (Elapses ms))
            (Answers 1 (AxiosOk r))).
  rewrite first_call_state, waiting_calls_state; [|done].
  rewrite drain_idle; [|done].
  cbn [step fst snd AkeneoAuthApi_post]. unfold drain, settle.
  cbn -[replicate seq run_jobs new_AkeneoGrant].
  change (map ?f ?l) with (f <$> l).
  change (run_jobs (?x :: ?l) ?s0) with (run_jobs l (resume x s0)).
  cbn -[replicate seq run_jobs new_AkeneoGrant].
  rewrite (waiting_continuations n [Returned (new_AkeneoGrant 0 (t + ms) r)] _
             (Returned (new_AkeneoGrant 0 (t + ms) r))); [done|done|].
  cbn -[new_AkeneoGrant]. unfold cached. cbn -[new_AkeneoGrant]. rewrite Hfresh. by eexists.
Qed.

(** X5: when that exchange fails instead, every one of the [n + 1] waiting
    calls throws the same converted failure and no grant is stored. *)
Theorem failed_exchange_reaches_all_waiters (n : nat) o t ms error :
  run maskedSnapshot [Calls 1; Calls n; Elapses ms; Answers 1 (AxiosFail error)]
    (new_AkeneoAuth (Json := Json) (Diag := Diag) o t)
  = ({| refreshIfWithinSecs := default default_refreshIfWithinSecs o;
        grant := None;
        grantPromise := 1%nat |},
     {| promises := [Settles (Fulfilled None);
                     Settles (Rejected (transformError maskedSnapshot error))];
        frames := replicate (S n) (Threw (transformError maskedSnapshot error));
        jobs := []; now := t + ms; exchanges := [1%nat]; allocated := 0%nat |}).
Proof.
  change (run maskedSnapshot [Calls 1; Calls n; Elapses ms; Answers 1 (AxiosFail error)]
            (new_AkeneoAuth o t))
    with (step maskedSnapshot
            (step maskedSnapshot
               (drain (Nat.iter n call (run maskedSnapshot [Calls 1] (new_AkeneoAuth o t))))
               (Elapses ms))
            (Answers 1 (AxiosFail error))).
  rewrite first_call_state, waiting_calls_state; [|done].
  assert (AkeneoAuthApi_post maskedSnapshot (AxiosFail error)
          = Rejected (transformError maskedSnapshot error)) as Hpost by (by destruct error).
  rewrite drain_idle; [|done].
  cbn [step fst snd]. rewrite Hpost. unfold drain, settle.
  cbn -[replicate seq run_jobs transformError].
  change (map ?f ?l) with (f <$> l).
  change (run_jobs (?x :: ?l) ?s0) with (run_jobs l (resume x s0)).
  cbn -[replicate seq run_jobs transformError].
  by rewrite (waiting_continuations n [Threw (transformError maskedSnapshot error)] _
                (Threw (transformError maskedSnapshot error))).
Qed.


Lemma started_app (fs1 fs2 : list (Frame Json Diag)) :
  started (fs1 ++ fs2) = (started fs1 + started fs2)%nat.
Proof. induction fs1 as [|f fs1 IH]; simpl; [done|]. rewrite IH. lia. Qed.

Lemma started_le_length (fs : list (Frame Json Diag)) : (started fs ≤ length fs)%nat.
Proof. induction fs as [|f fs IH]; simpl; [done|]. destruct (past_first_await f); lia. Qed.

Lemma started_insert (fs : list (Frame Json Diag)) : ∀ (c : nat) f f',
  fs !! c = Some f →
  (started (<[c := f']> fs) + (if past_first_await f then 1 else 0)
   = started fs + (if past_first_await f' then 1 else 0))%nat.
Proof.
  induction fs as [|f0 fs IH]; intros c f f' Hc; [done|].
  destruct c as [|c]; simpl in *.
  - injection Hc as ->. lia.
  - specialize (IH c f f' Hc). lia.
Qed.

Lemma resume_keeps_bound job st :
  (length (exchanges st.2) ≤ started (frames st.2))%nat →
  (length (exchanges (resume job st).2) ≤ started (frames (resume job st).2))%nat.
Proof.
  intros Hinv. unfold resume.
  destruct (frames st.2 !! job.1) as [f|] eqn:Hf; [|done].
  destruct f; try done.
  - destruct job.2 as [v|e].
    + destruct (cached st.1 (now st.2)) as [g|].
      * cbn. pose proof (started_insert _ _ _ (Returned g) Hf) as H. simpl in H. lia.
      * cbn. unfold await. cbn. rewrite list_lookup_middle; [|done]. cbn.
        rewrite length_app. simpl.
        pose proof (started_insert _ _ _ AtAwaitExchange Hf) as H. simpl in H. lia.
    + cbn. pose proof (started_insert _ _ _ (Threw e) Hf) as H. simpl in H. lia.
  - destruct job.2 as [[r|]|e]; cbn.
    + pose proof (started_insert _ _ _ (Returned (new_AkeneoGrant (allocated st.2) (now st.2) r)) Hf)
        as H. simpl in H. lia.
    + pose proof (started_insert _ _ _ (Threw (ThrownOther "TypeError")) Hf) as H.
      simpl in H. lia.
    + pose proof (started_insert _ _ _ (Threw e) Hf) as H. simpl in H. lia.
Qed.

Lemma run_jobs_keeps_bound js : ∀ st,
  (length (exchanges st.2) ≤ started (frames st.2))%nat →
  (length (exchanges (run_jobs js st).2) ≤ started (frames (run_jobs js st).2))%nat.
Proof.
  induction js as [|j js IH]; intros st Hinv; [done|].
  simpl. by apply IH, resume_keeps_bound.
Qed.

Lemma calls_keep_bound (n : nat) st :
  (length (exchanges st.2) ≤ started (frames st.2))%nat →
  (length (exchanges (Nat.iter n call st).2) ≤ started (frames (Nat.iter n call st).2))%nat.
Proof.
  intros Hinv. induction n as [|n IH]; [done|].
  rewrite Nat.iter_succ. destruct (Nat.iter n call st) as [a rt]. simpl in IH.
  unfold call, await. cbn.
  destruct (promises rt !! grantPromise a) as [[rs|s]|]; cbn; rewrite started_app; simpl; lia.
Qed.

Lemma step_keeps_bound st ev :
  (length (exchanges st.2) ≤ started (frames st.2))%nat →
  (length (exchanges (step maskedSnapshot st ev).2)
   ≤ started (frames (step maskedSnapshot st ev).2))%nat.
Proof.
  intros Hinv. destruct ev as [n|p net|ms]; simpl.
  - unfold drain. apply run_jobs_keeps_bound. cbn. by apply calls_keep_bound.
  - unfold drain. apply run_jobs_keeps_bound. unfold settle. cbn.
    by destruct (promises st.2 !! p) as [[rs|s]|].
  - done.
Qed.

(** X17: whatever happens to an instance, in any order, it never has started
    more credential exchanges than [getClientGrant] has been called. *)
Theorem exchanges_never_exceed_calls (evs : list (Event Json Diag)) o t :
  (length (exchanges (run maskedSnapshot evs (new_AkeneoAuth o t)).2)
   ≤ length (frames (run maskedSnapshot evs (new_AkeneoAuth o t)).2))%nat.
Proof.
  assert (∀ st, (length (exchanges st.2) ≤ started (frames st.2))%nat →
                (length (exchanges (run maskedSnapshot evs st).2)
                 ≤ started (frames (run maskedSnapshot evs st).2))%nat) as Hrun.
  { unfold run. induction evs as [|ev evs IH]; intros st Hinv; [done|].
    simpl. by apply IH, step_keeps_bound. }
  etrans; [by apply Hrun|]. apply started_le_length.
Qed.

End AuthMore.

(** ** More on the executor *)

Section ApiMore.

Variables Json Diag : Type.
Variable maskedSnapshot : AxiosError Json -> Diag.
Variable calculateDelay : Z -> AkeneoRetryConfig -> Z.
Variable R : Type.

Implicit Types (w : World Json Diag R) (error : Thrown Json Diag).
Implicit Types (config : RequestConfig Json) (retryConfig : AkeneoRetryConfig).

(** [m] retryable failures, then an answer, within the retry budget. *)
Lemma request_loop_recovers (m : nat) : ∀ (fuel : nat) config retryConfig (c : nat) w data,
  Z.of_nat (c + m) <= maxRetries retryConfig →
  (m < fuel)%nat →
  (∀ i, (i < m)%nat → ∃ error,
      server w (requests w + i)%nat config = AxiosFail error ∧
      isRetryableError error = true) →
  server w (requests w + m)%nat config = AxiosOk data →
  ∃ w',
    request_loop maskedSnapshot calculateDelay fuel config retryConfig (Z.of_nat c) w
      = Some (inr data, w') ∧
    requests w' = (requests w + S m)%nat ∧
    trace w' = trace w ++ concat (attempt_effects calculateDelay config retryConfig <$> seq c (S m)).
Proof.
  induction m as [|m IH]; intros fuel config retryConfig c w data Hmax Hfuel Hfail Hok;
    (destruct fuel as [|fuel]; [lia|]);
    destruct (attempt_world Json Diag maskedSnapshot calculateDelay R config retryConfig c w)
      as (H1 & _ & H3 & H4 & H5);
    rewrite request_loop_unfold; cbv zeta; rewrite H1.
  - rewrite Nat.add_0_r in Hok. rewrite Hok. eexists. split; [done|].
    split; [rewrite H4; lia|]. rewrite H5. simpl. by rewrite app_nil_r.
  - destruct (Hfail 0%nat) as (error & Herr & Hretry); [lia|].
    rewrite Nat.add_0_r in Herr. rewrite Herr, Hretry.
    destruct (Z.leb_spec (Z.of_nat (S c)) (maxRetries retryConfig)); [|lia].
    destruct (IH fuel config retryConfig (S c)
                (axios config (before_attempt maskedSnapshot calculateDelay retryConfig c w)).2
                data) as (w' & Hrun & Hreq & Htr).
    + lia.
    + lia.
    + intros i Hi. rewrite H3, H4. destruct (Hfail (S i)) as (e' & He' & Hr'); [lia|].
      exists e'. split; [|done]. rewrite <- He'. f_equal. lia.
    + rewrite H3, H4, <- Hok. f_equal. lia.
    + exists w'. split; [done|]. split; [rewrite Hreq, H4; lia|].
      rewrite Htr, H5, <- app_assoc. f_equal.
Qed.

(** The first answer is a response: it is returned after the one attempt. *)
Lemma request_first_answer api options w g w1 data :
  getClientGrant maskedSnapshot w = Some (inr g, w1) →
  server w (requests w) (request_options api options g) = AxiosOk data →
  request maskedSnapshot calculateDelay api options w
    = Some (inr data, (axios (request_options api options g) w1).2).
Proof.
  intros Hg Hsrv.
  destruct (getClientGrant_world _ _ _ _ _ _ _ Hg) as (_ & H2 & H3 & _).
  rewrite (request_grant _ _ _ _ _ _ _ _ _ _ Hg).
  change 0 with (Z.of_nat 0). rewrite request_loop_unfold. cbv zeta. cbn [before_attempt].
  cbn [axios fst snd]. by rewrite H2, H3, Hsrv.
Qed.

(** X6: [m] retryable failures followed by a response, with [m] within
    [maxRetries]: the request returns that response after [m + 1] attempts,
    having waited [calculateDelay i] before the i-th retry, and asks for
    nothing more. *)
Theorem request_recovers_after_retries api options w g w1 (m : nat) data :
  getClientGrant maskedSnapshot w = Some (inr g, w1) →
  Z.of_nat m <= maxRetries (getRetryConfig api (fo_retry options)) →
  (∀ i, (i < m)%nat → ∃ error,
      server w (requests w + i)%nat (request_options api options g) = AxiosFail error ∧
      isRetryableError error = true) →
  server w (requests w + m)%nat (request_options api options g) = AxiosOk data →
  ∃ w',
    request maskedSnapshot calculateDelay api options w = Some (inr data, w') ∧
    requests w' = (requests w + S m)%nat ∧
    trace w' = trace w ++ AskedGrant ::
      loop_effects calculateDelay (request_options api options g)
        (getRetryConfig api (fo_retry options)) (S m).
Proof.
  intros Hg Hm Hfail Hok.
  destruct (getClientGrant_world _ _ _ _ _ _ _ Hg) as (_ & H2 & H3 & H4).
  rewrite (request_grant _ _ _ _ _ _ _ _ _ _ Hg).
  destruct (request_loop_recovers m
              (S (Z.to_nat (maxRetries (getRetryConfig api (fo_retry options)))))
              (request_options api options g) (getRetryConfig api (fo_retry options))
              0%nat w1 data) as (w' & Hrun & Hreq & Htr).
  - simpl. lia.
  - lia.
  - intros i Hi. rewrite H2, H3. by apply Hfail.
  - by rewrite H2, H3.
  - exists w'. change (Z.of_nat 0) with 0 in Hrun. split; [done|].
    split; [by rewrite Hreq, H3|]. rewrite Htr, H4. by rewrite <- app_assoc.
Qed.

(** X7: with [maxRetries] zero or negative the body of the loop still runs
    once: one attempt, and any failure is raised at once. *)
Theorem request_without_retry_budget api options w g w1 error :
  getClientGrant maskedSnapshot w = Some (inr g, w1) →
  maxRetries (getRetryConfig api (fo_retry options)) <= 0 →
  server w (requests w) (request_options api options g) = AxiosFail error →
  ∃ w',
    request maskedSnapshot calculateDelay api options w
      = Some (inl (transformError maskedSnapshot error), w') ∧
    trace w' = trace w ++ [AskedGrant; Sent (request_options api options g)].
Proof.
  intros Hg Hmax Hsrv.
  destruct (getClientGrant_world _ _ _ _ _ _ _ Hg) as (_ & H2 & H3 & H4).
  rewrite (request_grant _ _ _ _ _ _ _ _ _ _ Hg).
  change 0 with (Z.of_nat 0). rewrite request_loop_unfold. cbv zeta. cbn [before_attempt].
  cbn [axios fst snd]. rewrite H2, H3, Hsrv.
  destruct (Z.leb_spec (Z.of_nat 1) (maxRetries (getRetryConfig api (fo_retry options))));
    [lia|].
  eexists. split; [by destruct (isRetryableError error)|].
  cbn. rewrite H4. by rewrite <- app_assoc.
Qed.

(** Whatever the loop raises is the conversion of the failure that the
    endpoint answered to its last attempt. *)
Lemma request_loop_raises (fuel : nat) : ∀ config retryConfig (c : nat) w e w',
  request_loop maskedSnapshot calculateDelay fuel config retryConfig (Z.of_nat c) w
    = Some (inl e, w') →
  ∃ (n : nat) error,
    (requests w ≤ n)%nat ∧
    requests w' = S n ∧
    server w n config = AxiosFail error ∧
    e = transformError maskedSnapshot error.
Proof.
  induction fuel as [|fuel IH]; intros config retryConfig c w e w' Hrun; [done|].
  destruct (attempt_world Json Diag maskedSnapshot calculateDelay R config retryConfig c w)
    as (H1 & _ & H3 & H4 & _).
  rewrite request_loop_unfold in Hrun. cbv zeta in Hrun. rewrite H1 in Hrun.
  destruct (server w (requests w) config) as [data|error] eqn:Hsrv; [done|].
  destruct (isRetryableError error);
    [destruct (Z.of_nat (S c) <=? maxRetries retryConfig)|].
  - apply IH in Hrun as (n & error' & Hn & Hlast & Hsrv' & ->).
    rewrite H3 in Hsrv'. rewrite H4 in Hn. exists n, error'. split; [lia|done].
  - injection Hrun as <- Hw. exists (requests w), error.
    split; [done|]. split; [rewrite <- Hw; exact H4|done].
  - injection Hrun as <- Hw. exists (requests w), error.
    split; [done|]. split; [rewrite <- Hw; exact H4|done].
Qed.

(** X8: an error raised by a request that had its grant is never an axios
    error: it is the conversion of the failure that the endpoint answered to
    the last attempt of this request (attempt number [n] of the endpoint,
    not before the request began, and the last one counted when it
    ended). *)
Theorem request_raises_converted_failures api options w g w1 e w' :
  getClientGrant maskedSnapshot w = Some (inr g, w1) →
  request maskedSnapshot calculateDelay api options w = Some (inl e, w') →
  isAxiosError e = false ∧
  ∃ (n : nat) error,
    (requests w ≤ n)%nat ∧
    requests w' = S n ∧
    server w n (request_options api options g) = AxiosFail error ∧
    e = transformError maskedSnapshot error.
Proof.
  intros Hg Hrun.
  destruct (getClientGrant_world _ _ _ _ _ _ _ Hg) as (_ & H2 & H3 & _).
  rewrite (request_grant _ _ _ _ _ _ _ _ _ _ Hg) in Hrun.
  change 0 with (Z.of_nat 0) in Hrun.
  apply request_loop_raises in Hrun as (n & error & Hn & Hlast & Hsrv & ->).
  rewrite H2 in Hsrv. rewrite H3 in Hn. split; [by destruct error|]. by exists n, error.
Qed.

(** X9: once the handle of the credential cache is rejected, every request
    raises the stored reason without sending anything and without a new
    exchange, and leaves the cache rejected. *)
Theorem rejected_handle_blocks_requests api options w e :
  jobs (auth w).2 = [] →
  promises (auth w).2 !! grantPromise (auth w).1 = Some (Settles (Rejected e)) →
  ∃ w',
    request maskedSnapshot calculateDelay api options w = Some (inl e, w') ∧
    requests w' = requests w ∧
    attempts (trace w') = attempts (trace w) ∧
    exchanges (auth w').2 = exchanges (auth w).2 ∧
    jobs (auth w').2 = [] ∧
    promises (auth w').2 !! grantPromise (auth w').1 = Some (Settles (Rejected e)).
Proof.
  intros Hjobs Hrej.
  assert (getClientGrant_alone maskedSnapshot
            (oauth w (length (exchanges (auth w).2))) (auth w)
          = (Some (inl e),
             ((auth w).1, set_frames (frames (auth w).2 ++ [Threw e]) (auth w).2))) as Halone.
  { unfold getClientGrant_alone.
    rewrite (lone_call Json Diag maskedSnapshot (auth w) _ Hjobs Hrej).
    unfold resume. cbn [fst snd frames set_frames].
    rewrite list_lookup_middle; [|done]. cbn [fst snd frames complete set_frames].
    rewrite insert_last.
    rewrite (list_lookup_middle (frames (auth w).2) [] (Threw e) _ eq_refl).
    unfold outcome. cbn [fst snd frames complete set_frames].
    rewrite insert_last, list_lookup_middle; [|done].
    unfold complete, set_frames. cbn. by rewrite insert_last. }
  eexists. unfold request, getRequestOptions, getClientGrant. rewrite Halone. cbn [fst snd].
  split; [done|]. cbn. split; [done|]. split; [|done].
  unfold attempts. rewrite omap_app. simpl. by rewrite app_nil_r.
Qed.

(** X10: a retry configuration on the request replaces the one of the client
    altogether: two clients that differ only in their retry configuration
    treat such a request alike. *)
Theorem request_retry_config_replaces_client_config api api' options retryConfig w :
  fo_retry options = Some retryConfig →
  endpoint api' = endpoint api →
  axios_defaults_headers api' = axios_defaults_headers api →
  request maskedSnapshot calculateDelay api' options w
    = request maskedSnapshot calculateDelay api options w.
Proof.
  intros Hretry Hend Hdef.
  unfold request, getRequestOptions, request_options, getRetryConfig.
  by rewrite Hretry, Hend, Hdef.
Qed.


(** X18: the retry loop does not cover the credential exchange: when the
    exchange fails, the request raises the converted failure after that
    single exchange and sends nothing, whatever [maxRetries] is. *)
Theorem request_does_not_retry_the_exchange api options w v error :
  jobs (auth w).2 = [] →
  promises (auth w).2 !! grantPromise (auth w).1 = Some (Settles (Fulfilled v)) →
  cached (auth w).1 (now (auth w).2) = None →
  oauth w (length (exchanges (auth w).2)) = AxiosFail error →
  ∃ w',
    request maskedSnapshot calculateDelay api options w
      = Some (inl (transformError maskedSnapshot error), w') ∧
    requests w' = requests w ∧
    attempts (trace w') = attempts (trace w) ∧
    exchanges (auth w').2 = exchanges (auth w).2 ++ [length (promises (auth w).2)].
Proof.
  intros Hjobs Hv Hc Hnet.
  destruct (lone_call_failed_refresh Json Diag maskedSnapshot error (auth w) v Hjobs Hv Hc)
    as (st' & Halone & _ & Hex & _).
  eexists. unfold request, getRequestOptions, getClientGrant. rewrite Hnet, Halone.
  cbn [fst snd]. split; [done|]. cbn. split; [done|]. split; [|done].
  unfold attempts. rewrite omap_app. simpl. by rewrite app_nil_r.
Qed.

(** The attempts of the loop all carry the configuration it was given. *)
Lemma request_loop_attempts (fuel : nat) : ∀ config retryConfig (c : nat) w res w',
  request_loop maskedSnapshot calculateDelay fuel config retryConfig (Z.of_nat c) w
    = Some (res, w') →
  ∃ n : nat, attempts (trace w') = attempts (trace w) ++ replicate n config.
Proof.
  induction fuel as [|fuel IH]; intros config retryConfig c w res w' Hrun; [done|].
  destruct (attempt_world Json Diag maskedSnapshot calculateDelay R config retryConfig c w)
    as (_ & _ & _ & _ & H5).
  assert (attempts (trace (axios config
            (before_attempt maskedSnapshot calculateDelay retryConfig c w)).2)
          = attempts (trace w) ++ [config]) as Hone.
  { rewrite H5. unfold attempts. rewrite omap_app. by destruct c. }
  rewrite request_loop_unfold in Hrun. cbv zeta in Hrun.
  destruct (axios config (before_attempt maskedSnapshot calculateDelay retryConfig c w)).1
    as [data|error].
  - injection Hrun as _ <-. by exists 1%nat.
  - destruct (isRetryableError error);
      [destruct (Z.of_nat (S c) <=? maxRetries retryConfig)|].
    + apply IH in Hrun as [n Hn]. exists (S n). rewrite Hn, Hone, <- app_assoc. done.
    + injection Hrun as _ <-. by exists 1%nat.
    + injection Hrun as _ <-. by exists 1%nat.
Qed.

(** Whatever a request sends is the one configuration built from its
    options. *)
Lemma request_attempts api options w res w' :
  request maskedSnapshot calculateDelay api options w = Some (res, w') →
  ∃ sent, attempts (trace w') = attempts (trace w) ++ sent ∧
          Forall (λ c, ∃ g, c = request_options api options g) sent.
Proof.
  unfold request, getRequestOptions. intros Hrun.
  destruct (getClientGrant maskedSnapshot w) as [[[e|g] w1]|] eqn:Hg; [| |done].
  - injection Hrun as _ <-. exists [].
    destruct (getClientGrant_world _ _ _ _ _ _ _ Hg) as (_ & _ & _ & H4).
    rewrite H4. unfold attempts. rewrite omap_app. simpl. by rewrite !app_nil_r.
  - destruct (getClientGrant_world _ _ _ _ _ _ _ Hg) as (_ & _ & _ & H4).
    change 0 with (Z.of_nat 0) in Hrun.
    apply request_loop_attempts in Hrun as [n Hn].
    exists (replicate n (request_options api options g)). split.
    + rewrite Hn, H4. unfold attempts. rewrite omap_app. simpl. by rewrite app_nil_r.
    + apply Forall_replicate. by exists g.
Qed.

End ApiMore.

(** ** More on the pagination walker *)

Section PaginationMore.

Variables Json Diag : Type.
Variable maskedSnapshot : AxiosError Json -> Diag.
Variable calculateDelay : Z -> AkeneoRetryConfig -> Z.
Variable T : Type.

Implicit Types (r page : Results T) (h : list (Results T)) (pages : list (Results T)).
Implicit Types (w : World Json Diag (Results T)).

Lemma pages_loop_broken api (response : nat) w nextHref pages e w' :
  broken_chain maskedSnapshot calculateDelay api w nextHref pages e w' →
  ∀ fuel h r,
    h !! response = Some r →
    (length pages < fuel)%nat →
    ∃ h',
      pages_loop maskedSnapshot calculateDelay fuel api response nextHref h w
        = Some (inl e, h', w') ∧
      h' !! response = Some (push_items (concat (_embedded_items <$> pages)) r) ∧
      length h' = (length h + length pages)%nat.
Proof.
  induction 1 as [w url e w1 Htruthy Hfollow
                 | w url page w1 pages e w2 Htruthy Hfollow Hchain IH];
    intros fuel h r Hr Hfuel; (destruct fuel as [|fuel]; [simpl in Hfuel; lia|]).
  - exists h. simpl. rewrite Htruthy, Hfollow, push_items_nil. split; [done|].
    split; [done|lia].
  - simpl. rewrite Htruthy, Hfollow.
    edestruct (IH fuel) as (h' & Hrun & Hlook & Hlen).
    + by apply (store_after_page T h response r page).
    + simpl in Hfuel. lia.
    + exists h'. split; [exact Hrun|]. split; [by rewrite Hlook, push_items_push|].
      rewrite Hlen. rewrite list_lookup_middle; [|done].
      rewrite length_alter, length_app. simpl. lia.
Qed.

(** X11: when following a link is raised as an error, the error is passed on;
    the items of the pages fetched so far stay appended to the first page
    object and its [_links] are left as they were (not reduced to
    [first]). *)
Theorem appendRemainingPages_failure_midway api (response : nat) r h pages e w w'
    (fuel : nat) :
  h !! response = Some r →
  broken_chain maskedSnapshot calculateDelay api w (next_href r) pages e w' →
  (length pages < fuel)%nat →
  ∃ h',
    appendRemainingPages maskedSnapshot calculateDelay fuel api response h w
      = Some (inl e, h', w') ∧
    h' !! response =
      Some {| _links := _links r;
              current_page := current_page r;
              items_count := items_count r;
              _embedded_items := _embedded_items r ++ concat (_embedded_items <$> pages) |}.
Proof.
  intros Hr Hchain Hfuel.
  destruct (pages_loop_broken api response w _ pages e w' Hchain fuel h r Hr Hfuel)
    as (h' & Hrun & Hlook & _).
  exists h'. unfold appendRemainingPages. by rewrite Hr, Hrun.
Qed.

(** X12: there is no page limit: against an endpoint whose every page has a
    next link the loop does not finish, whatever bound the model is given. *)
Theorem appendRemainingPages_endless api (response : nat) r h
    (P : World Json Diag (Results T) → Prop) :
  (∀ url w, P w → truthy url = true →
     ∃ page w1,
       followLink maskedSnapshot calculateDelay api url w = Some (inr page, w1) ∧
       truthy_opt (next_href page) = true ∧ P w1) →
  h !! response = Some r →
  truthy_opt (next_href r) = true →
  ∀ (fuel : nat) w, P w →
    appendRemainingPages maskedSnapshot calculateDelay fuel api response h w = None.
Proof.
  intros Hserver Hr Hnext fuel w Hw.
  assert (∀ (fuel : nat) nextHref h w,
            P w → truthy_opt nextHref = true →
            pages_loop maskedSnapshot calculateDelay fuel api response nextHref h w = None)
    as Hloop.
  { clear - Hserver. induction fuel as [|fuel IH]; intros nextHref h w Hw Hnext;
      destruct nextHref as [url|]; simpl in Hnext; try done; simpl; rewrite Hnext; [done|].
    destruct (Hserver url w Hw Hnext) as (page & w1 & -> & Hmore & Hw1). by apply IH. }
  unfold appendRemainingPages. rewrite Hr. by rewrite Hloop.
Qed.

(** X13: [getListOf...] returns the reference of the object it created for
    the first page: without [fetchAll] the object is the first response;
    with [fetchAll] it holds the items of all pages and only the [first]
    link; objects that existed before are untouched. *)
Theorem getListOf_fetchAll api path params retryOpt h w page1 w1 pages w2 (fuel : nat) :
  request maskedSnapshot calculateDelay api
    {| fo_path := Some path; fo_url := None; fo_headers := None; fo_method := GET;
       fo_params := params; fo_data := None; fo_retry := retryOpt |} w
    = Some (inr page1, w1) →
  chain maskedSnapshot calculateDelay api w1 (next_href page1) pages w2 →
  (length pages ≤ fuel)%nat →
  getListOf maskedSnapshot calculateDelay fuel api path params retryOpt false h w
    = Some (inr (length h), h ++ [page1], w1) ∧
  ∃ h',
    getListOf maskedSnapshot calculateDelay fuel api path params retryOpt true h w
      = Some (inr (length h), h', w2) ∧
    h' !! length h =
      Some {| _links := {| self := None; first := first (_links page1);
                           previous := None; next := None |};
              current_page := current_page page1;
              items_count := items_count page1;
              _embedded_items :=
                _embedded_items page1 ++ concat (_embedded_items <$> pages) |} ∧
    (∀ l, (l < length h)%nat → h' !! l = h !! l).
Proof.
  intros Hfirst Hchain Hfuel. unfold getListOf. rewrite Hfirst. split; [done|].
  assert ((h ++ [page1]) !! length h = Some page1) as Hr by (by apply list_lookup_middle).
  destruct (pages_loop_chain Json Diag maskedSnapshot calculateDelay T api (length h) w1 _
              pages w2 Hchain fuel (h ++ [page1]) page1 Hr Hfuel) as (h' & Hrun & Hlook).
  pose proof Hrun as Hframe.
  apply pages_loop_frame in Hframe; [|rewrite length_app; simpl; lia].
  destruct Hframe as (_ & Hother & _).
  exists (alter keep_first_link (length h) h'). unfold appendRemainingPages.
  rewrite Hr, Hrun. split; [done|]. split.
  - by rewrite list_lookup_alter_eq, Hlook.
  - intros l Hl. rewrite list_lookup_alter_ne; [|lia].
    rewrite Hother; [|lia|rewrite length_app; simpl; lia]. by apply lookup_app_l.
Qed.


Lemma chain_attempts api w nextHref pages w' :
  chain maskedSnapshot calculateDelay api w nextHref pages w' →
  ∃ sent,
    attempts (trace w') = attempts (trace w) ++ sent ∧
    Forall (λ c, rc_method c = GET ∧ rc_data c = None ∧
                 Some (rc_url c) ∈ nextHref :: (next_href <$> pages)) sent.
Proof.
  induction 1 as [w nextHref Hfalsy | w url page w1 pages w2 Htruthy Hfollow Hchain IH].
  - exists []. by rewrite app_nil_r.
  - destruct IH as (sent2 & Htr2 & Hall2).
    unfold followLink in Hfollow.
    apply request_attempts in Hfollow as (sent1 & Htr1 & Hall1).
    exists (sent1 ++ sent2). split; [by rewrite Htr2, Htr1, app_assoc|].
    apply Forall_app. split.
    + eapply Forall_impl; [exact Hall1|]. intros c [g ->]. simpl.
      split; [done|]. split; [done|]. apply elem_of_cons. by left.
    + eapply Forall_impl; [exact Hall2|]. intros c (Hm & Hd & Hin).
      split; [done|]. split; [done|]. rewrite fmap_cons. apply elem_of_cons. by right.
Qed.

(** X19: every request that draining sends to the REST endpoint (through
    [this.axios]) is a [GET] without a body, to the [next] link of the first
    page or of a page fetched on the way.  (The credential exchanges that
    [auth.getClientGrant] may start on the way go to the token endpoint and
    are not among these.) *)
Theorem draining_sends_only_gets_to_the_links api (response : nat) r h pages w w'
    (fuel : nat) :
  h !! response = Some r →
  chain maskedSnapshot calculateDelay api w (next_href r) pages w' →
  (length pages ≤ fuel)%nat →
  ∃ h' sent,
    appendRemainingPages maskedSnapshot calculateDelay fuel api response h w
      = Some (inr (), h', w') ∧
    attempts (trace w') = attempts (trace w) ++ sent ∧
    Forall (λ c, rc_method c = GET ∧ rc_data c = None ∧
                 Some (rc_url c) ∈ next_href r :: (next_href <$> pages)) sent.
Proof.
  intros Hr Hchain Hfuel.
  destruct (pages_loop_chain Json Diag maskedSnapshot calculateDelay T api response w _
              pages w' Hchain fuel h r Hr Hfuel) as (h' & Hrun & _).
  destruct (chain_attempts api w _ pages w' Hchain) as (sent & Htr & Hall).
  exists (alter keep_first_link response h'), sent.
  unfold appendRemainingPages. by rewrite Hr, Hrun.
Qed.

End PaginationMore.

(** ** Request data of an error, configuration *)

Lemma substring_of_append (p s : string) :
  String.substring 0 (String.length p) (p +:+ s) = p.
Proof. induction p as [|a p IH]; simpl; [by destruct s|by rewrite IH]. Qed.

Lemma getAll_nil_iff (key : string) (pairs : list (string * string)) :
  getAll key pairs = [] ↔ key ∉ pairs.*1.
Proof.
  unfold getAll. induction pairs as [|[k v] pairs IH]; simpl.
  - split; [intros _; apply not_elem_of_nil|done].
  - rewrite filter_cons. simpl. rewrite not_elem_of_cons.
    destruct (decide (k = key)) as [->|Hne]; simpl.
    + split; [done|]. by intros [? _].
    + rewrite IH. split; [by intros ?; split|by intros [_ ?]].
Qed.

Lemma fold_assign_lookup (all ps : list (string * string)) (key : string) :
  ∀ obj : gmap string ParamValue,
  foldl (fun obj p => assign p.1 (param_value (getAll p.1 all)) obj) obj ps !! key
  = if decide (key ≠ "__proto__" ∧ key ∈ ps.*1)
    then Some (param_value (getAll key all))
    else obj !! key.
Proof.
  induction ps as [|[k v] ps IH]; intros obj.
  - simpl. case_decide as H; [|done]. destruct H as [_ H]. by apply elem_of_nil in H.
  - simpl. rewrite IH.
    destruct (decide (key ≠ "__proto__" ∧ key ∈ ps.*1)) as [[Hp Hin]|Hn].
    + rewrite decide_True; [done|]. split; [done|]. by apply elem_of_cons; right.
    + unfold assign. destruct (decide (k = "__proto__")) as [Hk|Hk].
      * rewrite decide_False; [done|]. intros [Hp Hin].
        apply elem_of_cons in Hin as [Hin|Hin]; [congruence|tauto].
      * destruct (decide (key = k)) as [->|Hne].
        -- rewrite lookup_insert_eq, decide_True; [done|].
           split; [done|]. by apply elem_of_cons; left.
        -- rewrite lookup_insert_ne; [|done]. rewrite decide_False; [done|].
           intros [Hp Hin]. apply elem_of_cons in Hin as [Hin|Hin]; [done|tauto].
Qed.

(** X14: the object built from form data has exactly the keys of the search
    parameters (except [__proto__]); a key that occurs once maps to its
    value, a repeated key to the array of its values in order; the branch
    for a key without values is never taken. *)
Theorem paramsObj_groups_values (pairs : list (string * string)) (key : string) :
  paramsObj_of pairs !! key
  = (if decide (key ≠ "__proto__" ∧ key ∈ pairs.*1)
     then Some (match getAll key pairs with
                | [v] => PString v
                | values => PArray values
                end)
     else None) ∧
  (key ∈ pairs.*1 → getAll key pairs ≠ []).
Proof.
  split.
  - unfold paramsObj_of. rewrite fold_assign_lookup, lookup_empty.
    case_decide as H; [|done]. destruct H as [_ Hin].
    unfold param_value. destruct (getAll key pairs) as [|v [|v' vs]] eqn:Hall; try done.
    by apply getAll_nil_iff in Hall.
  - intros Hin Hall. by apply getAll_nil_iff in Hall.
Qed.

Section RequestDataFacts.

Variable Json : Type.
Variable JSON_parse : string -> option Json.
Variable URLSearchParams : string -> list (string * string).

(** X15: [parseRequestData] returns the data untouched unless it is a
    non-empty string whose content type starts with [application/json]
    (and parses) or with [application/x-www-form-urlencoded]; a content
    type with a suffix such as a charset still counts. *)
Theorem parseRequestData_changes_only_typed_strings (c : InternalConfig Json) :
  (parseRequestData JSON_parse URLSearchParams (Some c) = ic_data c ∨
   ∃ s ct,
     ic_data c = DString s ∧ truthy s = true ∧ ic_content_type c = Some ct ∧
     (has_prefix 16 "application/json" ct = true ∧
        (∃ j, JSON_parse s = Some j ∧
              parseRequestData JSON_parse URLSearchParams (Some c) = DValue j)
      ∨ has_prefix 16 "application/json" ct = false ∧
        has_prefix 33 "application/x-www-form-urlencoded" ct = true ∧
        parseRequestData JSON_parse URLSearchParams (Some c)
          = DParams (paramsObj_of (URLSearchParams s)))) ∧
  (∀ s suffix j,
     ic_data c = DString s → truthy s = true →
     ic_content_type c = Some ("application/json" +:+ suffix) →
     JSON_parse s = Some j →
     parseRequestData JSON_parse URLSearchParams (Some c) = DValue j).
Proof.
  split.
  - unfold parseRequestData. destruct (ic_data c) as [| | |s| |] eqn:Hd; try by left.
    destruct (truthy s) eqn:Hs; [|by left].
    destruct (ic_content_type c) as [ct|] eqn:Hct; simpl; [|by left].
    destruct (has_prefix 16 "application/json" ct) eqn:Hjson.
    + destruct (JSON_parse s) as [j|] eqn:Hparse; [|by left].
      right. exists s, ct. repeat split; try done. left. split; [done|]. by exists j.
    + destruct (has_prefix 33 "application/x-www-form-urlencoded" ct) eqn:Hform; [|by left].
      right. exists s, ct. repeat split; try done. by right.
  - intros s suffix j Hd Hs Hct Hparse. unfold parseRequestData.
    rewrite Hd, Hs, Hct. simpl default. unfold has_prefix.
    change 16%nat with (String.length "application/json").
    by rewrite substring_of_append, String.eqb_refl, Hparse.
Qed.

End RequestDataFacts.

Section ValidationFacts.

Variable Diag : Type.
Variable validURL : string -> bool.

Lemma property_errors_nil (name : string) (more : string -> list string) (v : ConfigValue) :
  property_errors name more v = [] ↔ ∃ s, v = CfgString s ∧ truthy s = true ∧ more s = [].
Proof.
  destruct v as [|s|]; simpl.
  - split; [done|]. by intros (s & ? & _).
  - destruct (truthy s) eqn:Hs.
    + split; [intros H; by exists s|]. by intros (s' & [= <-] & _ & H).
    + split; [done|]. intros (s' & [= <-] & H & _). congruence.
  - split; [done|]. by intros (s & ? & _).
Qed.

(** X16: [validateConfig] returns without throwing exactly when the
    configuration is present, its five properties are non-empty strings
    and the endpoint is accepted by [URL]. *)
Theorem validateConfig_accepts_iff (config : option RawConfig) :
  validateConfig (Diag := Diag) validURL config = None ↔
  ∃ c, config = Some c ∧
       (∃ s, cfg_endpoint c = CfgString s ∧ truthy s = true ∧ validURL s = true) ∧
       (∃ s, cfg_username c = CfgString s ∧ truthy s = true) ∧
       (∃ s, cfg_password c = CfgString s ∧ truthy s = true) ∧
       (∃ s, cfg_clientId c = CfgString s ∧ truthy s = true) ∧
       (∃ s, cfg_clientSecret c = CfgString s ∧ truthy s = true).
Proof.
  assert (validateConfig (Diag := Diag) validURL config = None ↔
          config_errors validURL config = []) as ->.
  { unfold validateConfig. by destruct (config_errors validURL config). }
  destruct config as [c|]; simpl.
  - rewrite !app_nil, !property_errors_nil. split.
    + intros ((e & He & Het & Hurl) & (u & Hu & Hut & _) & (p & Hp & Hpt & _)
              & (i & Hi & Hit & _) & (s & Hs & Hst & _)).
      exists c. split; [done|]. repeat split; eauto.
      exists e. repeat split; try done. by destruct (validURL e).
    + intros (c' & [= <-] & (e & He & Het & Hurl) & (u & Hu & Hut) & (p & Hp & Hpt)
              & (i & Hi & Hit) & (s & Hs & Hst)).
      repeat split; eauto 6. exists e. by rewrite Hurl.
  - split; [done|]. by intros (c & ? & _).
Qed.

End ValidationFacts.

(** ** The statements on the fixtures *)

Import Fixture.

Lemma newWorld_grant {R : Type} (srv : nat -> RequestConfig string -> AxiosResult string string R) :
  getClientGrant maskedSnapshot (newWorld srv) = Some (inr firstGrant, granted (newWorld srv)).
Proof. vm_compute. reflexivity. Qed.

Lemma statusError_http_failure status headers : http_failure (statusError status headers) status.
Proof. split; [done|]. by eexists. Qed.

Lemma request_always_500_attempts_witness :
  (maxRetries (getRetryConfig apiRetry2 (fo_retry (getProducts None))) = Z.of_nat 2 ∧
   getClientGrant maskedSnapshot world500 = Some (inr firstGrant, granted world500) ∧
   (∀ n config, ∃ e, server world500 n config = AxiosFail (ThrownAxios e) ∧ http_failure e 500)) ∧
  ∃ w' last,
    request maskedSnapshot calculateDelay apiRetry2 (getProducts None) world500
      = Some (inl (ThrownAkeneo (fromAxiosError maskedSnapshot last)), w') ∧
    server world500 (requests world500 + 2)%nat
        (request_options apiRetry2 (getProducts None) firstGrant)
      = AxiosFail (ThrownAxios last) ∧
    requests w' = (requests world500 + (2 + 1))%nat ∧
    attempts (trace w') =
      attempts (trace world500) ++
      replicate (2 + 1) (request_options apiRetry2 (getProducts None) firstGrant).
Proof.
  assert (∀ n config, ∃ e, server world500 n config = AxiosFail (ThrownAxios e) ∧
                           http_failure e 500) as Hsrv.
  { intros n config. exists (statusError 500 ∅). split; [reflexivity|].
    apply statusError_http_failure. }
  split; [split; [reflexivity|split; [apply newWorld_grant|exact Hsrv]]|].
  exact (request_always_500_attempts string string maskedSnapshot calculateDelay string
           apiRetry2 (getProducts None) world500 firstGrant (granted world500) 2
           eq_refl (newWorld_grant _) Hsrv).
Defined.


Lemma transformError_raw_passthrough_witness :
  (maxRetries (getRetryConfig apiRetry2 (fo_retry (getProducts None))) = Z.of_nat 2 ∧
   getClientGrant maskedSnapshot worldRaw = Some (inr firstGrant, granted worldRaw) ∧
   (∀ n config, ∃ error, server worldRaw n config = AxiosFail error ∧
                         isAxiosError error = false)) ∧
  ∃ w' last,
    request maskedSnapshot calculateDelay apiRetry2 (getProducts None) worldRaw
      = Some (inl last, w') ∧
    server worldRaw (requests worldRaw + 2)%nat
        (request_options apiRetry2 (getProducts None) firstGrant) = AxiosFail last ∧
    isAxiosError last = false.
Proof.
  assert (∀ n config, ∃ error, server worldRaw n config = AxiosFail error ∧
                               isAxiosError error = false) as Hsrv.
  { intros n config. exists (ThrownOther "TypeError"). split; reflexivity. }
  split; [split; [reflexivity|split; [apply newWorld_grant|exact Hsrv]]|].
  exact (proj2 (proj2
    (transformError_raw_passthrough string string maskedSnapshot calculateDelay string
       apiRetry2 (getProducts None) worldRaw firstGrant (granted worldRaw) 2
       eq_refl (newWorld_grant _) Hsrv))).
Defined.

Lemma request_429_single_attempt_witness :
  (getClientGrant maskedSnapshot world429 = Some (inr firstGrant, granted world429) ∧
   server world429 (requests world429) (request_options api429 (getProducts None) firstGrant)
     = AxiosFail (ThrownAxios (statusError 429 retryAfter2)) ∧
   http_failure (statusError 429 retryAfter2) 429) ∧
  ∃ w',
    request maskedSnapshot calculateDelay api429 (getProducts None) world429
      = Some (inl (ThrownAkeneo (fromAxiosError maskedSnapshot (statusError 429 retryAfter2))), w') ∧
    trace w' = trace world429 ++
               [AskedGrant; Sent (request_options api429 (getProducts None) firstGrant)].
Proof.
  split; [split; [apply newWorld_grant|split; [reflexivity|apply statusError_http_failure]]|].
  exact (request_429_single_attempt string string maskedSnapshot calculateDelay string
           api429 (getProducts None) world429 firstGrant (granted world429)
           (statusError 429 retryAfter2)
           (newWorld_grant _) eq_refl (statusError_http_failure 429 retryAfter2)).
Defined.

Lemma request_headers_caller_precedence_witness :
  getClientGrant maskedSnapshot world500 = Some (inr firstGrant, granted world500) ∧
  getRequestOptions maskedSnapshot apiDefault (getProducts (Some evilHeaders)) world500
    = Some (inr (request_options apiDefault (getProducts (Some evilHeaders)) firstGrant),
            granted world500) ∧
  (∀ name value,
      default ∅ (fo_headers (getProducts (Some evilHeaders))) !! name = Some value →
      rc_headers (request_options apiDefault (getProducts (Some evilHeaders)) firstGrant) !! name
        = Some (HString value)) ∧
  (default ∅ (fo_headers (getProducts (Some evilHeaders))) !! "Authorization" = None →
   rc_headers (request_options apiDefault (getProducts (Some evilHeaders)) firstGrant)
     !! "Authorization" = Some (HString ("Bearer " +:+ accessToken firstGrant))) ∧
  (∀ name,
      default ∅ (fo_headers (getProducts (Some evilHeaders))) !! name = None →
      name ≠ "Authorization" →
      rc_headers (request_options apiDefault (getProducts (Some evilHeaders)) firstGrant) !! name
        = axios_defaults_headers apiDefault !! name).
Proof.
  split; [apply newWorld_grant|].
  exact (request_headers_caller_precedence string string maskedSnapshot string
           apiDefault (getProducts (Some evilHeaders)) world500 firstGrant (granted world500)
           (newWorld_grant _)).
Defined.

Lemma authorization_header_overridden :
  ¬ authorization_protected maskedSnapshot apiDefault (getProducts (Some evilHeaders)) world500.
Proof.
  intros H.
  destruct (H (request_options apiDefault (getProducts (Some evilHeaders)) firstGrant)
              (granted world500)) as (g & Hg & Hheader).
  - apply getRequestOptions_grant, (newWorld_grant (alwaysStatus 500)).
  - pose proof (newWorld_grant (alwaysStatus 500)) as Hfirst.
    change (newWorld (alwaysStatus 500)) with world500 in Hfirst.
    rewrite Hfirst in Hg. injection Hg as <-.
    vm_compute in Hheader. discriminate Hheader.
Qed.

Lemma request_single_grant_then_delays_witness :
  getClientGrant maskedSnapshot world500Once = Some (inr firstGrant, granted world500Once) ∧
  ∃ res w' (n : nat),
    request maskedSnapshot calculateDelay apiRetry1 (getProducts None) world500Once
      = Some (res, w') ∧
    (1 ≤ n)%nat ∧
    trace w' = trace world500Once ++ AskedGrant ::
      loop_effects calculateDelay (request_options apiRetry1 (getProducts None) firstGrant)
        (getRetryConfig apiRetry1 (fo_retry (getProducts None))) n.
Proof.
  split; [apply newWorld_grant|].
  exact (request_single_grant_then_delays string string maskedSnapshot calculateDelay string
           apiRetry1 (getProducts None) world500Once firstGrant (granted world500Once)
           (newWorld_grant _)).
Defined.

Lemma retry_trace :
  effects_of (request maskedSnapshot calculateDelay apiRetry1 (getProducts None) world500Once)
  = [AskedGrant;
     Sent (request_options apiRetry1 (getProducts None) firstGrant);
     Slept 300;
     Sent (request_options apiRetry1 (getProducts None) firstGrant)].
Proof. vm_compute. reflexivity. Qed.

Lemma retry_reuses_first_grant :
  ¬ credential_refetched_on_retry
      (effects_of (request maskedSnapshot calculateDelay apiRetry1 (getProducts None)
                     world500Once)).
Proof.
  rewrite retry_trace. intros H.
  specialize (H [AskedGrant] (request_options apiRetry1 (getProducts None) firstGrant)
                [Slept 300] (request_options apiRetry1 (getProducts None) firstGrant) []
                eq_refl).
  assert (AskedGrant ∈ [Slept (Json := string) 300]) as Hin.
  { apply H. intros c Hc. apply list_elem_of_singleton in Hc. discriminate Hc. }
  apply list_elem_of_singleton in Hin. discriminate Hin.
Qed.

Lemma three_pages_chain :
  chain maskedSnapshot calculateDelay apiDefault worldPages (next_href page1)
    [page2; page3] worldPage3.
Proof.
  apply chain_next with (w1 := worldPage2); [reflexivity|vm_compute; reflexivity|].
  apply chain_next with (w1 := worldPage3); [reflexivity|vm_compute; reflexivity|].
  apply chain_end. reflexivity.
Qed.

Lemma appendRemainingPages_concatenates_witness :
  ([page1] !! 0%nat = Some page1 ∧
   chain maskedSnapshot calculateDelay apiDefault worldPages (next_href page1)
     [page2; page3] worldPage3 ∧
   (length [page2; page3] ≤ 5)%nat) ∧
  ∃ h',
    appendRemainingPages maskedSnapshot calculateDelay 5 apiDefault 0 [page1] worldPages
      = Some (inr (), h', worldPage3) ∧
    h' !! 0%nat =
      Some {| _links := {| self := None; first := first (_links page1);
                           previous := None; next := None |};
              current_page := current_page page1;
              items_count := items_count page1;
              _embedded_items :=
                _embedded_items page1 ++ concat (_embedded_items <$> [page2; page3]) |}.
Proof.
  assert (length [page2; page3] ≤ 5)%nat as Hfuel by (simpl; lia).
  split; [split; [reflexivity|split; [exact three_pages_chain|exact Hfuel]]|].
  exact (appendRemainingPages_concatenates string string maskedSnapshot calculateDelay string
           apiDefault 0 page1 [page1] [page2; page3] worldPages worldPage3 5
           eq_refl three_pages_chain Hfuel).
Defined.

Lemma drained_result :
  appendRemainingPages maskedSnapshot calculateDelay 5 apiDefault 0 [page1] worldPages
    = Some (inr (), store_after drained, world_after drained worldPages).
Proof. vm_compute. reflexivity. Qed.

Lemma appendRemainingPages_frame_witness :
  ([page1] !! 0%nat = Some page1 ∧
   appendRemainingPages maskedSnapshot calculateDelay 5 apiDefault 0 [page1] worldPages
     = Some (inr (), store_after drained, world_after drained worldPages)) ∧
  (∃ r', store_after drained !! 0%nat = Some r' ∧
         current_page r' = current_page page1 ∧ items_count r' = items_count page1) ∧
  (∀ l, l ≠ 0%nat → (l < length [page1])%nat → store_after drained !! l = [page1] !! l) ∧
  (length [page1] ≤ length (store_after drained))%nat.
Proof.
  split; [split; [reflexivity|exact drained_result]|].
  exact (appendRemainingPages_frame string string maskedSnapshot calculateDelay string
           apiDefault 0 page1 [page1] worldPages 5 (inr ()) (store_after drained)
           (world_after drained worldPages) eq_refl drained_result).
Defined.

Lemma rejectedAuth_handle :
  promises rejectedAuth.2 !! grantPromise rejectedAuth.1 = Some (Settles (Rejected exchangeError)).
Proof. vm_compute. reflexivity. Qed.

Lemma rejected_handle_poisons_later_calls_witness :
  (promises rejectedAuth.2 !! grantPromise rejectedAuth.1
     = Some (Settles (Rejected exchangeError)) ∧
   jobs rejectedAuth.2 = []) ∧
  outcome (length (frames rejectedAuth.2)) (step maskedSnapshot rejectedAuth (Calls 1))
    = Some (inl exchangeError) ∧
  exchanges (step maskedSnapshot rejectedAuth (Calls 1)).2 = exchanges rejectedAuth.2 ∧
  (step maskedSnapshot rejectedAuth (Calls 1)).1 = rejectedAuth.1 ∧
  promises (step maskedSnapshot rejectedAuth (Calls 1)).2 = promises rejectedAuth.2.
Proof.
  assert (jobs rejectedAuth.2 = []) as Hjobs by (vm_compute; reflexivity).
  split; [split; [exact rejectedAuth_handle|exact Hjobs]|].
  exact (rejected_handle_poisons_later_calls string string maskedSnapshot rejectedAuth
           exchangeError rejectedAuth_handle Hjobs).
Defined.

(** The failed exchange reaches both waiting callers and leaves no grant. *)
Lemma failed_exchange_reaches_every_waiter :
  outcome 0 rejectedAuth = Some (inl exchangeError) ∧
  outcome 1 rejectedAuth = Some (inl exchangeError) ∧
  grant rejectedAuth.1 = None ∧
  exchanges rejectedAuth.2 = [1%nat].
Proof. vm_compute. done. Qed.

(** Two calls in one turn end with two different [AkeneoGrant] objects. *)
Lemma same_turn_calls_get_distinct_grants :
  ∃ g0 g1,
    outcome 0 sameTurnAuth = Some (inr g0) ∧
    outcome 1 sameTurnAuth = Some (inr g1) ∧
    grant_oid g0 ≠ grant_oid g1 ∧
    exchanges sameTurnAuth.2 = [1%nat; 2%nat].
Proof.
  exists (new_AkeneoGrant 0 0 defaultClientGrantResponse),
         (new_AkeneoGrant 1 0 defaultClientGrantResponse).
  vm_compute. repeat split; done.
Qed.

(** Calls spaced over turns share the exchange and the grant. *)
Lemma spaced_calls_share_one_exchange :
  exchanges spacedAuth.2 = [1%nat] ∧
  ∀ c, (c < 5)%nat → outcome c spacedAuth = Some (inr firstGrant).
Proof.
  split; [vm_compute; reflexivity|].
  intros c Hc. do 5 (destruct c as [|c]; [vm_compute; reflexivity|]). lia.
Qed.

Lemma cached_grant_is_reused_witness :
  (jobs authNextDay.2 = [] ∧
   promises authNextDay.2 !! grantPromise authNextDay.1
     = Some (Settles (Fulfilled (Some defaultClientGrantResponse))) ∧
   grant authNextDay.1 = Some firstGrant ∧
   expiresWithin firstGrant (now authNextDay.2) (refreshIfWithinSecs authNextDay.1) = false) ∧
  getClientGrant_alone maskedSnapshot (AxiosOk otherClientGrantResponse) authNextDay
    = (Some (inr firstGrant),
       (authNextDay.1, set_frames (frames authNextDay.2 ++ [Returned firstGrant]) authNextDay.2)).
Proof.
  assert (jobs authNextDay.2 = []) as H1 by (vm_compute; reflexivity).
  assert (promises authNextDay.2 !! grantPromise authNextDay.1
          = Some (Settles (Fulfilled (Some defaultClientGrantResponse)))) as H2
    by (vm_compute; reflexivity).
  assert (grant authNextDay.1 = Some firstGrant) as H3 by (vm_compute; reflexivity).
  assert (expiresWithin firstGrant (now authNextDay.2) (refreshIfWithinSecs authNextDay.1)
          = false) as H4 by (vm_compute; reflexivity).
  split; [done|].
  exact (cached_grant_is_reused string string maskedSnapshot (AxiosOk otherClientGrantResponse)
           authNextDay _ firstGrant H1 H2 H3 H4).
Defined.

Lemma refresh_stores_new_grant_witness :
  (jobs authExpired.2 = [] ∧
   promises authExpired.2 !! grantPromise authExpired.1
     = Some (Settles (Fulfilled (Some defaultClientGrantResponse))) ∧
   cached authExpired.1 (now authExpired.2) = None) ∧
  ∃ st',
    getClientGrant_alone maskedSnapshot (AxiosOk otherClientGrantResponse) authExpired
      = (Some (inr (new_AkeneoGrant (allocated authExpired.2) (now authExpired.2)
                      otherClientGrantResponse)), st') ∧
    grant st'.1 = Some (new_AkeneoGrant (allocated authExpired.2) (now authExpired.2)
                          otherClientGrantResponse) ∧
    exchanges st'.2 = exchanges authExpired.2 ++ [length (promises authExpired.2)] ∧
    allocated st'.2 = S (allocated authExpired.2) ∧
    settled_handle st'.
Proof.
  assert (jobs authExpired.2 = []) as H1 by (vm_compute; reflexivity).
  assert (promises authExpired.2 !! grantPromise authExpired.1
          = Some (Settles (Fulfilled (Some defaultClientGrantResponse)))) as H2
    by (vm_compute; reflexivity).
  assert (cached authExpired.1 (now authExpired.2) = None) as H3 by (vm_compute; reflexivity).
  split; [done|].
  exact (refresh_stores_new_grant string string maskedSnapshot otherClientGrantResponse
           authExpired _ H1 H2 H3).
Defined.

Lemma failed_refresh_keeps_grant_witness :
  (jobs authExpired.2 = [] ∧
   promises authExpired.2 !! grantPromise authExpired.1
     = Some (Settles (Fulfilled (Some defaultClientGrantResponse))) ∧
   cached authExpired.1 (now authExpired.2) = None) ∧
  ∃ st',
    getClientGrant_alone maskedSnapshot (AxiosFail (ThrownAxios (statusError 500 ∅))) authExpired
      = (Some (inl (transformError maskedSnapshot (ThrownAxios (statusError 500 ∅)))), st') ∧
    grant st'.1 = grant authExpired.1 ∧
    exchanges st'.2 = exchanges authExpired.2 ++ [length (promises authExpired.2)] ∧
    promises st'.2 !! grantPromise st'.1
      = Some (Settles (Rejected (transformError maskedSnapshot
                                   (ThrownAxios (statusError 500 ∅))))) ∧
    jobs st'.2 = [].
Proof.
  assert (jobs authExpired.2 = []) as H1 by (vm_compute; reflexivity).
  assert (promises authExpired.2 !! grantPromise authExpired.1
          = Some (Settles (Fulfilled (Some defaultClientGrantResponse)))) as H2
    by (vm_compute; reflexivity).
  assert (cached authExpired.1 (now authExpired.2) = None) as H3 by (vm_compute; reflexivity).
  split; [done|].
  exact (failed_refresh_keeps_grant string string maskedSnapshot
           (ThrownAxios (statusError 500 ∅)) authExpired _ H1 H2 H3).
Defined.

Lemma waiting_callers_share_the_exchange_witness :
  expiresWithin (new_AkeneoGrant 0 (0 + 1500) defaultClientGrantResponse) (0 + 1500)
    (default default_refreshIfWithinSecs None) = false ∧
  run maskedSnapshot [Calls 1; Calls 4; Elapses 1500; Answers 1 (AxiosOk defaultClientGrantResponse)]
    (new_AkeneoAuth (Json := string) (Diag := string) None 0)
  = ({| refreshIfWithinSecs := default default_refreshIfWithinSecs None;
        grant := Some (new_AkeneoGrant 0 (0 + 1500) defaultClientGrantResponse);
        grantPromise := 1%nat |},
     {| promises := [Settles (Fulfilled None);
                     Settles (Fulfilled (Some defaultClientGrantResponse))];
        frames := replicate 5 (Returned (new_AkeneoGrant 0 (0 + 1500) defaultClientGrantResponse));
        jobs := []; now := 0 + 1500; exchanges := [1%nat]; allocated := 1%nat |}).
Proof.
  assert (expiresWithin (new_AkeneoGrant 0 (0 + 1500) defaultClientGrantResponse) (0 + 1500)
            (default default_refreshIfWithinSecs None) = false) as H
    by (vm_compute; reflexivity).
  split; [done|].
  exact (waiting_callers_share_the_exchange string string maskedSnapshot 4 None 0 1500
           defaultClientGrantResponse H).
Defined.

Lemma request_recovers_after_retries_witness :
  (getClientGrant maskedSnapshot world500Once = Some (inr firstGrant, granted world500Once) ∧
   Z.of_nat 1 <= maxRetries (getRetryConfig apiRetry4 (fo_retry (getProducts None))) ∧
   (∀ i, (i < 1)%nat → ∃ error,
      server world500Once (requests world500Once + i)%nat
        (request_options apiRetry4 (getProducts None) firstGrant) = AxiosFail error ∧
      isRetryableError error = true) ∧
   server world500Once (requests world500Once + 1)%nat
     (request_options apiRetry4 (getProducts None) firstGrant) = AxiosOk "{success: true}") ∧
  ∃ w',
    request maskedSnapshot calculateDelay apiRetry4 (getProducts None) world500Once
      = Some (inr "{success: true}", w') ∧
    requests w' = (requests world500Once + 2)%nat ∧
    trace w' = trace world500Once ++ AskedGrant ::
      loop_effects calculateDelay (request_options apiRetry4 (getProducts None) firstGrant)
        (getRetryConfig apiRetry4 (fo_retry (getProducts None))) 2.
Proof.
  assert (Z.of_nat 1 <= maxRetries (getRetryConfig apiRetry4 (fo_retry (getProducts None))))
    as Hm by (vm_compute; discriminate).
  assert (∀ i, (i < 1)%nat → ∃ error,
      server world500Once (requests world500Once + i)%nat
        (request_options apiRetry4 (getProducts None) firstGrant) = AxiosFail error ∧
      isRetryableError error = true) as Hfail.
  { intros i Hi. assert (i = 0%nat) as -> by lia.
    exists (ThrownAxios (statusError 500 ∅)). split; reflexivity. }
  split; [split; [apply newWorld_grant|split; [exact Hm|split; [exact Hfail|reflexivity]]]|].
  exact (request_recovers_after_retries string string maskedSnapshot calculateDelay string
           apiRetry4 (getProducts None) world500Once firstGrant (granted world500Once) 1
           "{success: true}" (newWorld_grant _) Hm Hfail eq_refl).
Defined.

Lemma request_without_retry_budget_witness :
  (getClientGrant maskedSnapshot world500 = Some (inr firstGrant, granted world500) ∧
   maxRetries (getRetryConfig apiNegative (fo_retry (getProducts None))) <= 0 ∧
   server world500 (requests world500) (request_options apiNegative (getProducts None) firstGrant)
     = AxiosFail (ThrownAxios (statusError 500 ∅))) ∧
  ∃ w',
    request maskedSnapshot calculateDelay apiNegative (getProducts None) world500
      = Some (inl (transformError maskedSnapshot (ThrownAxios (statusError 500 ∅))), w') ∧
    trace w' = trace world500 ++
               [AskedGrant; Sent (request_options apiNegative (getProducts None) firstGrant)].
Proof.
  assert (maxRetries (getRetryConfig apiNegative (fo_retry (getProducts None))) <= 0) as Hm
    by (vm_compute; discriminate).
  split; [split; [apply newWorld_grant|split; [exact Hm|reflexivity]]|].
  exact (request_without_retry_budget string string maskedSnapshot calculateDelay string
           apiNegative (getProducts None) world500 firstGrant (granted world500)
           (ThrownAxios (statusError 500 ∅)) (newWorld_grant _) Hm eq_refl).
Defined.

Lemma request_400_result :
  request maskedSnapshot calculateDelay apiRetry4 (getProducts None) world400
  = Some (inl (ThrownAkeneo (fromAxiosError maskedSnapshot (statusError 400 ∅))),
          world_after (request maskedSnapshot calculateDelay apiRetry4 (getProducts None) world400)
            world400).
Proof. vm_compute. reflexivity. Qed.

Lemma request_raises_converted_failures_witness :
  (getClientGrant maskedSnapshot world400 = Some (inr firstGrant, granted world400) ∧
   request maskedSnapshot calculateDelay apiRetry4 (getProducts None) world400
   = Some (inl (ThrownAkeneo (fromAxiosError maskedSnapshot (statusError 400 ∅))),
           world_after (request maskedSnapshot calculateDelay apiRetry4 (getProducts None)
                          world400) world400)) ∧
  isAxiosError (ThrownAkeneo (Json := string)
                  (fromAxiosError maskedSnapshot (statusError 400 ∅))) = false ∧
  ∃ (n : nat) error,
    (requests world400 ≤ n)%nat ∧
    requests (world_after (request maskedSnapshot calculateDelay apiRetry4 (getProducts None)
                             world400) world400) = S n ∧
    server world400 n (request_options apiRetry4 (getProducts None) firstGrant)
      = AxiosFail error ∧
    ThrownAkeneo (fromAxiosError maskedSnapshot (statusError 400 ∅))
      = transformError maskedSnapshot error.
Proof.
  split; [split; [apply newWorld_grant|exact request_400_result]|].
  exact (request_raises_converted_failures string string maskedSnapshot calculateDelay string
           apiRetry4 (getProducts None) world400 firstGrant (granted world400) _ _
           (newWorld_grant _) request_400_result).
Defined.

Lemma worldPoisoned_handle :
  promises (auth worldPoisoned).2 !! grantPromise (auth worldPoisoned).1
  = Some (Settles (Rejected exchangeError)).
Proof. vm_compute. reflexivity. Qed.

Lemma rejected_handle_blocks_requests_witness :
  (jobs (auth worldPoisoned).2 = [] ∧
   promises (auth worldPoisoned).2 !! grantPromise (auth worldPoisoned).1
     = Some (Settles (Rejected exchangeError))) ∧
  ∃ w',
    request maskedSnapshot calculateDelay apiRetry4 (getProducts None) worldPoisoned
      = Some (inl exchangeError, w') ∧
    requests w' = requests worldPoisoned ∧
    attempts (trace w') = attempts (trace worldPoisoned) ∧
    exchanges (auth w').2 = exchanges (auth worldPoisoned).2 ∧
    jobs (auth w').2 = [] ∧
    promises (auth w').2 !! grantPromise (auth w').1 = Some (Settles (Rejected exchangeError)).
Proof.
  assert (jobs (auth worldPoisoned).2 = []) as H1 by (vm_compute; reflexivity).
  split; [split; [exact H1|exact worldPoisoned_handle]|].
  exact (rejected_handle_blocks_requests string string maskedSnapshot calculateDelay string
           apiRetry4 (getProducts None) worldPoisoned exchangeError H1 worldPoisoned_handle).
Defined.

Lemma request_retry_config_replaces_client_config_witness :
  (fo_retry getProductsWithRetry = Some (retryOf 500 1 None) ∧
   endpoint apiRetry4 = endpoint apiRetry2 ∧
   axios_defaults_headers apiRetry4 = axios_defaults_headers apiRetry2) ∧
  request maskedSnapshot calculateDelay apiRetry4 getProductsWithRetry world500
    = request maskedSnapshot calculateDelay apiRetry2 getProductsWithRetry world500.
Proof.
  split; [split; [reflexivity|split; reflexivity]|].
  exact (request_retry_config_replaces_client_config string string maskedSnapshot
           calculateDelay string apiRetry2 apiRetry4 getProductsWithRetry
           (retryOf 500 1 None) world500 eq_refl eq_refl eq_refl).
Defined.

Lemma two_pages_then_failure :
  broken_chain maskedSnapshot calculateDelay apiDefault worldBroken (next_href page1)
    [page2] (ThrownAkeneo (fromAxiosError maskedSnapshot (statusError 500 ∅))) worldBroken3.
Proof.
  apply broken_later with (w1 := worldBroken2); [reflexivity|vm_compute; reflexivity|].
  apply broken_here; [reflexivity|vm_compute; reflexivity].
Qed.

Lemma appendRemainingPages_failure_midway_witness :
  ([page1] !! 0%nat = Some page1 ∧
   broken_chain maskedSnapshot calculateDelay apiDefault worldBroken (next_href page1)
     [page2] (ThrownAkeneo (fromAxiosError maskedSnapshot (statusError 500 ∅))) worldBroken3 ∧
   (length [page2] < 5)%nat) ∧
  ∃ h',
    appendRemainingPages maskedSnapshot calculateDelay 5 apiDefault 0 [page1] worldBroken
      = Some (inl (ThrownAkeneo (fromAxiosError maskedSnapshot (statusError 500 ∅))),
              h', worldBroken3) ∧
    h' !! 0%nat =
      Some {| _links := _links page1;
              current_page := current_page page1;
              items_count := items_count page1;
              _embedded_items := _embedded_items page1 ++ concat (_embedded_items <$> [page2]) |}.
Proof.
  assert (length [page2] < 5)%nat as Hfuel by (simpl; lia).
  split; [split; [reflexivity|split; [exact two_pages_then_failure|exact Hfuel]]|].
  exact (appendRemainingPages_failure_midway string string maskedSnapshot calculateDelay string
           apiDefault 0 page1 [page1] [page2] _ worldBroken worldBroken3 5
           eq_refl two_pages_then_failure Hfuel).
Defined.

Lemma worldLoop_holdsFirstGrant : holdsFirstGrant worldLoop.
Proof.
  split; [vm_compute; reflexivity|]. split; [eexists; vm_compute; reflexivity|].
  split; [vm_compute; reflexivity|]. split; vm_compute; reflexivity.
Qed.

Lemma loopServer_never_ends url (w : World string string (Results string)) :
  holdsFirstGrant w → truthy url = true →
  ∃ page w1,
    followLink maskedSnapshot calculateDelay apiDefault url w = Some (inr page, w1) ∧
    truthy_opt (next_href page) = true ∧ holdsFirstGrant w1.
Proof.
  intros (Hjobs & [v Hv] & Hgrant & Hfresh & Hsrv) _.
  assert (getClientGrant maskedSnapshot w
          = Some (inr firstGrant,
                  log AskedGrant
                    (set_auth ((auth w).1,
                               set_frames (frames (auth w).2 ++ [Returned firstGrant])
                                 (auth w).2) w))) as Hg.
  { unfold getClientGrant.
    by rewrite (lone_call_cached string string maskedSnapshot _ (auth w) v firstGrant
                  Hjobs Hv Hgrant Hfresh). }
  exists page2. eexists. split.
  - unfold followLink. apply (request_first_answer _ _ _ _ _ _ _ _ _ _ _ Hg).
    by rewrite Hsrv.
  - split; [reflexivity|]. repeat split; try done. by exists v.
Qed.

Lemma appendRemainingPages_endless_witness :
  ((∀ url w, holdsFirstGrant w → truthy url = true →
      ∃ page w1,
        followLink maskedSnapshot calculateDelay apiDefault url w = Some (inr page, w1) ∧
        truthy_opt (next_href page) = true ∧ holdsFirstGrant w1) ∧
   [page1] !! 0%nat = Some page1 ∧
   truthy_opt (next_href page1) = true ∧
   holdsFirstGrant worldLoop) ∧
  appendRemainingPages maskedSnapshot calculateDelay 1000 apiDefault 0 [page1] worldLoop = None.
Proof.
  split; [split; [exact loopServer_never_ends|split; [reflexivity|split;
    [reflexivity|exact worldLoop_holdsFirstGrant]]]|].
  exact (appendRemainingPages_endless string string maskedSnapshot calculateDelay string
           apiDefault 0 page1 [page1] holdsFirstGrant loopServer_never_ends eq_refl eq_refl
           1000%nat worldLoop worldLoop_holdsFirstGrant).
Defined.

Lemma first_page_requested :
  request maskedSnapshot calculateDelay apiDefault listOptions worldPages
  = Some (inr page1, worldList1).
Proof. vm_compute. reflexivity. Qed.

Lemma listed_pages_chain :
  chain maskedSnapshot calculateDelay apiDefault worldList1 (next_href page1)
    [page2; page3] worldList3.
Proof.
  apply chain_next with (w1 := worldList2); [reflexivity|vm_compute; reflexivity|].
  apply chain_next with (w1 := worldList3); [reflexivity|vm_compute; reflexivity|].
  apply chain_end. reflexivity.
Qed.

Lemma getListOf_fetchAll_witness :
  (request maskedSnapshot calculateDelay apiDefault listOptions worldPages
     = Some (inr page1, worldList1) ∧
   chain maskedSnapshot calculateDelay apiDefault worldList1 (next_href page1)
     [page2; page3] worldList3 ∧
   (length [page2; page3] ≤ 5)%nat) ∧
  getListOf maskedSnapshot calculateDelay 5 apiDefault "/products" None None false []
    worldPages
    = Some (inr (length ([] : list (Results string))), [] ++ [page1], worldList1) ∧
  ∃ h',
    getListOf maskedSnapshot calculateDelay 5 apiDefault "/products" None None true []
      worldPages
      = Some (inr (length ([] : list (Results string))), h', worldList3) ∧
    h' !! length ([] : list (Results string)) =
      Some {| _links := {| self := None; first := first (_links page1);
                           previous := None; next := None |};
              current_page := current_page page1;
              items_count := items_count page1;
              _embedded_items :=
                _embedded_items page1 ++ concat (_embedded_items <$> [page2; page3]) |} ∧
    (∀ l, (l < length ([] : list (Results string)))%nat → h' !! l = [] !! l).
Proof.
  assert (length [page2; page3] ≤ 5)%nat as Hfuel by (simpl; lia).
  split; [split; [exact first_page_requested|split; [exact listed_pages_chain|exact Hfuel]]|].
  exact (getListOf_fetchAll string string maskedSnapshot calculateDelay string
           apiDefault "/products" None None [] worldPages page1 worldList1 [page2; page3]
           worldList3 5 first_page_requested listed_pages_chain Hfuel).
Defined.

Lemma paramsObj_groups_values_witness :
  "double" ∈ formPairs.*1 ∧
  paramsObj_of formPairs !! "double" = Some (PArray ["2"; "3"]) ∧
  paramsObj_of formPairs !! "novalue" = Some (PString "") ∧
  getAll "double" formPairs ≠ [].
Proof.
  assert ("double" ∈ formPairs.*1) as Hin.
  { simpl. apply elem_of_cons. right. apply elem_of_cons. by left. }
  split; [exact Hin|].
  split; [rewrite (proj1 (paramsObj_groups_values formPairs "double")); vm_compute; reflexivity|].
  split; [rewrite (proj1 (paramsObj_groups_values formPairs "novalue")); vm_compute; reflexivity|].
  exact (proj2 (paramsObj_groups_values formPairs "double") Hin).
Defined.

Lemma parseRequestData_changes_only_typed_strings_witness :
  (ic_data jsonRequest = DString "[1]" ∧ truthy "[1]" = true ∧
   ic_content_type jsonRequest = Some ("application/json" +:+ "; charset=utf-8") ∧
   parseJson "[1]" = Some "array of 1") ∧
  parseRequestData parseJson parseForm (Some jsonRequest) = DValue "array of 1".
Proof.
  split; [repeat split; reflexivity|].
  exact (proj2 (parseRequestData_changes_only_typed_strings string parseJson parseForm jsonRequest)
           "[1]" "; charset=utf-8" "array of 1" eq_refl eq_refl eq_refl eq_refl).
Defined.

Lemma validateConfig_accepts_iff_witness :
  validateConfig (Diag := string) validURL (Some defaultConfig) = None ∧
  validateConfig (Diag := string) validURL None ≠ None.
Proof.
  split.
  - apply (proj2 (validateConfig_accepts_iff string validURL (Some defaultConfig))).
    exists defaultConfig. split; [reflexivity|].
    repeat split; eexists; repeat split; reflexivity.
  - intros H. apply (proj1 (validateConfig_accepts_iff string validURL None)) in H.
    destruct H as (c & Hc & _). discriminate Hc.
Defined.

Lemma request_does_not_retry_the_exchange_witness :
  (jobs (auth worldExchangeFails).2 = [] ∧
   promises (auth worldExchangeFails).2 !! grantPromise (auth worldExchangeFails).1
     = Some (Settles (Fulfilled None)) ∧
   cached (auth worldExchangeFails).1 (now (auth worldExchangeFails).2) = None ∧
   oauth worldExchangeFails (length (exchanges (auth worldExchangeFails).2))
     = AxiosFail (ThrownAxios (statusError 500 ∅))) ∧
  ∃ w',
    request maskedSnapshot calculateDelay apiRetry4 (getProducts None) worldExchangeFails
      = Some (inl (transformError maskedSnapshot (ThrownAxios (statusError 500 ∅))), w') ∧
    requests w' = requests worldExchangeFails ∧
    attempts (trace w') = attempts (trace worldExchangeFails) ∧
    exchanges (auth w').2
      = exchanges (auth worldExchangeFails).2 ++ [length (promises (auth worldExchangeFails).2)].
Proof.
  split; [repeat split; reflexivity|].
  exact (request_does_not_retry_the_exchange string string maskedSnapshot calculateDelay string
           apiRetry4 (getProducts None) worldExchangeFails None
           (ThrownAxios (statusError 500 ∅)) eq_refl eq_refl eq_refl eq_refl).
Defined.

Lemma draining_sends_only_gets_to_the_links_witness :
  ([page1] !! 0%nat = Some page1 ∧
   chain maskedSnapshot calculateDelay apiDefault worldPages (next_href page1)
     [page2; page3] worldPage3 ∧
   (length [page2; page3] ≤ 5)%nat) ∧
  ∃ h' sent,
    appendRemainingPages maskedSnapshot calculateDelay 5 apiDefault 0 [page1] worldPages
      = Some (inr (), h', worldPage3) ∧
    attempts (trace worldPage3) = attempts (trace worldPages) ++ sent ∧
    Forall (λ c, rc_method c = GET ∧ rc_data c = None ∧
                 Some (rc_url c) ∈ next_href page1 :: (next_href <$> [page2; page3])) sent.
Proof.
  assert (length [page2; page3] ≤ 5)%nat as Hfuel by (simpl; lia).
  split; [split; [reflexivity|split; [exact three_pages_chain|exact Hfuel]]|].
  exact (draining_sends_only_gets_to_the_links string string maskedSnapshot calculateDelay
           string apiDefault 0 page1 [page1] [page2; page3] worldPages worldPage3 5
           eq_refl three_pages_chain Hfuel).
Defined.
